(** * vscode-env-manager: a shallow embedding of [vscode-env-manager.py]

    The script is a command-line dispatcher over six operations that
    read and write a few files, spawn the editor's [code] command and a
    shell copy, and print to standard output.  The embedding keeps that
    shape: an environment record for what the process is started with,
    a state record for what it changes (files, standard output, a log
    of the system calls it makes), and a state-and-exception monad in
    which every operation is written line by line after the source. *)

From Stdlib Require Import ZArith Ascii String.
From stdpp Require Import gmap strings list pretty sorting.

Open Scope string_scope.
Open Scope list_scope.
Open Scope nat_scope.

(** ** Text

    A text is a [string] whose characters are read as the code points
    0..255.  Encoding and decoding are not modelled: a file or a pipe
    holds the text Python hands to the program. *)

Module Text.

Definition LF : ascii := "010"%char.
Definition CR : ascii := "013"%char.

(** [str.isspace] on a single character, for the code points 0..255:
    TAB, LF, VT, FF, CR, the separators FS, GS, RS, US, the space,
    NEL and the no-break space. *)
Definition isspace (c : ascii) : bool :=
  let n := N_of_ascii c in
  ((9 <=? n) && (n <=? 13) || (28 <=? n) && (n <=? 32)
   || (n =? 133) || (n =? 160))%N.

Definition is_empty (s : string) : bool :=
  match s with EmptyString => true | String _ _ => false end.

Fixpoint lstrip (s : string) : string :=
  match s with
  | EmptyString => EmptyString
  | String c r => if isspace c then lstrip r else s
  end.

Fixpoint rstrip (s : string) : string :=
  match s with
  | EmptyString => EmptyString
  | String c r =>
      let r' := rstrip r in
      if isspace c && is_empty r' then EmptyString else String c r'
  end.

(** [str.strip()] without argument. *)
Definition strip (s : string) : string := rstrip (lstrip s).

(** What text mode with [newline=None] does on input: CR LF and a lone
    CR both become LF. *)
Fixpoint universal_newlines (s : string) : string :=
  match s with
  | EmptyString => EmptyString
  | String c r =>
      if Ascii.eqb c CR then
        match r with
        | String c' r' =>
            if Ascii.eqb c' LF then String LF (universal_newlines r')
            else String LF (universal_newlines r)
        | EmptyString => String LF EmptyString
        end
      else String c (universal_newlines r)
  end.

(** [readlines()]: cut after every LF and keep it; a last line
    without LF is kept as it is. *)
Fixpoint readlines (s : string) : list string :=
  match s with
  | EmptyString => []
  | String c r =>
      if Ascii.eqb c LF then String c EmptyString :: readlines r
      else match readlines r with
           | [] => [String c EmptyString]
           | l :: ls => String c l :: ls
           end
  end.

Fixpoint repeat_char (c : ascii) (n : nat) : string :=
  match n with O => EmptyString | S k => String c (repeat_char c k) end.

Fixpoint last_char (s : string) : option ascii :=
  match s with
  | EmptyString => None
  | String c r =>
      match last_char r with Some d => Some d | None => Some c end
  end.

Definition first_char (s : string) : option ascii :=
  match s with EmptyString => None | String c _ => Some c end.

(** A text of ASCII characters only, the code points 0..127.  The
    codecs a file can go through, the locale's on reading and UTF-8 on
    writing, agree on these: each is one byte, the same in both. *)
Fixpoint is_ascii (s : string) : bool :=
  match s with
  | EmptyString => true
  | String c r => (N_of_ascii c <? 128)%N && is_ascii r
  end.

(** [s.split(sep)] for a separator of one character. *)
Fixpoint split_on (sep : ascii) (s : string) : list string :=
  match s with
  | EmptyString => [EmptyString]
  | String c r =>
      if Ascii.eqb c sep then EmptyString :: split_on sep r
      else match split_on sep r with
           | x :: xs => String c x :: xs
           | [] => [String c EmptyString]
           end
  end.

Fixpoint has_char (c : ascii) (s : string) : bool :=
  match s with
  | EmptyString => false
  | String d r => Ascii.eqb c d || has_char c r
  end.

Definition is_letter (c : ascii) : bool :=
  let n := N_of_ascii c in
  ((65 <=? n) && (n <=? 90) || (97 <=? n) && (n <=? 122))%N.

End Text.

(** ** The process environment *)

Record Env := {
  sys_platform : string;            (* sys.platform *)
  HOME : string;                    (* what "~" expands to *)
  APPDATA : option string;          (* os.getenv("APPDATA") *)
  argv0 : string;                   (* sys.argv[0] *)
  args : list string;               (* sys.argv[1:] *)
  epoch : Z;                        (* int(datetime.datetime.now().timestamp()) *)
  code_on_path : bool;              (* can the [code] executable be started *)
  code_list_extensions : string;    (* what [code --list-extensions] writes to its stdout *)
  code_status : list string → Z;    (* exit status of a [code] invocation *)
  code_effect : list string → gmap string string * gset string
                → gmap string string * gset string;
    (* what a [code --install-extension x] or [code --uninstall-extension x]
       does to the files and directories *)
  set_order : gset string → list string  (* the order in which a [set] is iterated *)
}.

(** Python leaves the iteration order of a set open; any enumeration
    of the elements, each once, is possible. *)
Definition set_order_ok (env : Env) : Prop :=
  ∀ X : gset string, set_order env X ≡ₚ elements X.

(** The module-level flag as the [__main__] block leaves it. *)
Definition IS_WINDOWS (env : Env) : option bool :=
  if String.prefix "linux" (sys_platform env) then Some false
  else if String.prefix "win32" (sys_platform env) then Some true
  else None.

(** Truth value of an object that is [None], [False] or [True]. *)
Definition truthy (o : option bool) : bool :=
  match o with Some true => true | _ => false end.

(** ** State, exceptions and the monad *)

Inductive exn :=
| FileNotFoundError (path : string)
| UnboundLocalError (var : string)
| TypeError (what : string).

Inductive open_mode := ModeR | ModeW.

Inductive event :=
| EvOpen (path : string) (mode : open_mode)
| EvOpenFailed (path : string) (mode : open_mode)
| EvWrite (path data : string)
| EvClose (path : string)
| EvSpawn (argv : list string) (status : Z)
| EvShell (command : string).

Record State := {
  files : gmap string string;   (* path ↦ content *)
  dirs : gset string;           (* directories other than the working directory *)
  stdout : list string;         (* chunks written to standard output, oldest first *)
  trace : list event            (* system calls made, oldest first *)
}.

Global Instance exn_eq_dec : EqDecision exn.
Proof. solve_decision. Defined.
Global Instance open_mode_eq_dec : EqDecision open_mode.
Proof. solve_decision. Defined.
Global Instance event_eq_dec : EqDecision event.
Proof. solve_decision. Defined.

Inductive result (A : Type) :=
| Ok (a : A)
| Raise (e : exn).
Arguments Ok {A} a.
Arguments Raise {A} e.

Definition M (A : Type) : Type := State → result A * State.

Global Instance M_ret : MRet M := λ A a s, (Ok a, s).
Global Instance M_bind : MBind M := λ A B f m s,
  match m s with
  | (Ok a, s') => f a s'
  | (Raise e, s') => (Raise e, s')
  end.

Definition raise {A} (e : exn) : M A := λ s, (Raise e, s).

Definition log (ev : event) (s : State) : State :=
  {| files := files s; dirs := dirs s; stdout := stdout s;
     trace := trace s ++ [ev] |}.

Definition set_files (f : gmap string string) (s : State) : State :=
  {| files := f; dirs := dirs s; stdout := stdout s; trace := trace s |}.

Definition set_disk (d : gmap string string * gset string) (s : State) : State :=
  {| files := d.1; dirs := d.2; stdout := stdout s; trace := trace s |}.

Definition emit (chunk : string) (s : State) : State :=
  {| files := files s; dirs := dirs s; stdout := stdout s ++ [chunk];
     trace := trace s |}.

Fixpoint for_each {A} (l : list A) (body : A → M unit) : M unit :=
  match l with
  | [] => mret tt
  | x :: l' => body x ;; for_each l' body
  end.

(** The exit status of the interpreter: 0 after a normal return, 1
    after an exception nobody caught. *)
Definition exit_status {A} (r : result A) : Z :=
  match r with Ok _ => 0%Z | Raise _ => 1%Z end.

(** ** System calls *)

Section Primitives.
Context (env : Env).

(** [os.sep], and on Windows also [os.altsep]. *)
Definition is_sep (c : ascii) : bool :=
  Ascii.eqb c "/" || (truthy (IS_WINDOWS env) && Ascii.eqb c "\").

(** The directory part of a path, [None] for a bare file name. *)
Fixpoint dirname (path : string) : option string :=
  match path with
  | EmptyString => None
  | String c r =>
      match dirname r with
      | Some d => Some (String c d)
      | None => if is_sep c then Some EmptyString else None
      end
  end.

(** A file can be created where its directory exists; a bare file
    name lands in the working directory, which always exists. *)
Definition can_create (s : State) (path : string) : bool :=
  match dirname path with
  | None => true
  | Some d => bool_decide (d ∈ dirs s)
  end.

Definition open_r (path : string) : M unit := λ s,
  match files s !! path with
  | Some _ => (Ok tt, log (EvOpen path ModeR) s)
  | None => (Raise (FileNotFoundError path), log (EvOpenFailed path ModeR) s)
  end.

(** Mode "w" creates the file or empties it. *)
Definition open_w (path : string) : M unit := λ s,
  if bool_decide (is_Some (files s !! path)) || can_create s path
  then (Ok tt,
        log (EvOpen path ModeW) (set_files (<[path := EmptyString]> (files s)) s))
  else (Raise (FileNotFoundError path), log (EvOpenFailed path ModeW) s).

(** [with open(...) as f: body]: the file is closed on every way out
    of the body. *)
Definition with_file {A} (enter : string → M unit) (path : string)
    (body : M A) : M A := λ s,
  match enter path s with
  | (Ok _, s1) => let '(r, s2) := body s1 in (r, log (EvClose path) s2)
  | (Raise e, s1) => (Raise e, s1)
  end.

(** [f.read()] and [f.readlines()] of a file opened in text mode.  A
    file is held as the text the locale's codec reads from it, so that
    reading only translates the line ends. *)
Definition read (path : string) : M string := λ s,
  (Ok (Text.universal_newlines (default EmptyString (files s !! path))), s).

Definition readlines (path : string) : M (list string) :=
  text ← read path; mret (Text.readlines text).

(** [f.write(data)] of a file opened with [encoding="utf-8"] and
    [newline="\n"]: the line ends go out unchanged, the text as UTF-8.
    For ASCII text that is the text again as the locale's codec reads
    it; the statements about what a written file holds keep to ASCII
    text ([Text.is_ascii]). *)
Definition write (path data : string) : M unit := λ s,
  (Ok tt,
   log (EvWrite path data)
     (set_files (<[path := default EmptyString (files s !! path) +:+ data]> (files s)) s)).

(** [print(x)] writes [x] and a line feed. *)
Definition print (x : string) : M unit := λ s,
  (Ok tt, emit (x +:+ String Text.LF EmptyString) s).

(** [sys.stdout.writelines(lines)] *)
Definition writelines (lines : list string) : M unit :=
  for_each lines (λ l s, (Ok tt, emit l s)).

(** Starting [code] with [shell=IS_WINDOWS].  Through the shell the
    start always succeeds, and a missing [code] only shows in the
    status; without the shell a missing executable raises. *)
Definition can_spawn : bool := truthy (IS_WINDOWS env) || code_on_path env.

Definition listed : string :=
  if code_on_path env then code_list_extensions env else EmptyString.

(** [subprocess.run(argv, shell=IS_WINDOWS)] for the two commands that
    install and remove an extension: the editor changes files and
    directories as it sees fit, the program waits for it and drops the
    returned status. *)
Definition run (argv : list string) : M unit := λ s,
  if can_spawn then
    (Ok tt,
     log (EvSpawn argv (code_status env argv))
       (set_disk (code_effect env argv (files s, dirs s)) s))
  else (Raise (FileNotFoundError "code"), s).

(** [subprocess.run(argv, stdout=file, shell=IS_WINDOWS)]: the child
    writes straight to the file. *)
Definition run_to_file (argv : list string) (path : string) : M unit := λ s,
  if can_spawn then
    (Ok tt,
     log (EvSpawn argv (code_status env argv))
       (set_files (<[path := default EmptyString (files s !! path) +:+ listed]> (files s)) s))
  else (Raise (FileNotFoundError "code"), s).

(** [subprocess.Popen(argv, stdout=subprocess.PIPE, shell=IS_WINDOWS)]
    followed by [p.stdout.readlines()] and the decoding of each line:
    the pipe is cut at LF only. *)
Definition popen_readlines (argv : list string) : M (list string) := λ s,
  if can_spawn then
    (Ok (Text.readlines listed), log (EvSpawn argv (code_status env argv)) s)
  else (Raise (FileNotFoundError "code"), s).

End Primitives.

(** The shell is outside the program.  [shell_copies command] says
    whether the platform's shell takes the command line for the copy of
    one file to another that it is meant to be. *)
Record Shell := { shell_copies : string → bool }.

Section Operations.
Context (env : Env) (sh : Shell).

(** [subprocess.run(command, shell=True)] for a copy command, with
    the source and the target as the shell resolves them.  A copy
    that fails only yields a status, which is dropped. *)
Definition shell_copy (command src dst : string) : M unit := λ s,
  let s' := log (EvShell command) s in
  match files s !! src with
  | Some c =>
      if shell_copies sh command
      then (Ok tt, set_files (<[dst := c]> (files s)) s')
      else (Ok tt, s')
  | None => (Ok tt, s')
  end.

Definition extensions_txt : string := "vscode-extensions.txt".
Definition settings_jsonc : string := "vscode-settings.jsonc".

Definition is_linux : bool := String.prefix "linux" (sys_platform env).

(** [pathlib.Path("~/.config/Code/User/settings.json")] *)
Definition linux_settings : string := "~/.config/Code/User/settings.json".

(** [pathlib.Path(os.getenv("APPDATA")) / "Code" / "User" / "settings.json"],
    for an [APPDATA] that is a directory path in normal form. *)
Definition windows_settings (appdata : string) : string :=
  appdata +:+ "\Code\User\settings.json".

(** [Path.expanduser()]: a leading "~" component becomes the home
    directory, any other path is returned as it is. *)
Definition expanduser (p : string) : string :=
  match p with
  | String c rest => if Ascii.eqb c "~" then HOME env +:+ rest else p
  | EmptyString => p
  end.

(** The [if linux ... elif IS_WINDOWS ...] that assigns [p] in [diff]
    and [restore]; [None] is the variable left unassigned. *)
Definition settings_path : M (option string) :=
  if is_linux then mret (Some linux_settings)
  else if truthy (IS_WINDOWS env) then
    match APPDATA env with
    | Some appdata => mret (Some (windows_settings appdata))
    | None => raise (TypeError "NoneType")
    end
  else mret None.

(** Reading a local variable. *)
Definition local (name : string) (v : option string) : M string :=
  match v with
  | Some x => mret x
  | None => raise (UnboundLocalError name)
  end.

Definition list_argv : list string := ["code"; "--list-extensions"].

Definition backup : M unit :=
  with_file (open_w env) extensions_txt
    (run_to_file env list_argv extensions_txt) ;;
  if is_linux then
    shell_copy "cp ~/.config/Code/User/settings.json ./vscode-settings.jsonc"
      (expanduser linux_settings) settings_jsonc
  else if truthy (IS_WINDOWS env) then
    match APPDATA env with
    | Some appdata =>
        let p := windows_settings appdata in
        shell_copy ("copy " +:+ p +:+ " .\vscode-settings.jsonc") p settings_jsonc
    | None => raise (TypeError "NoneType")
    end
  else mret tt.

(** [set(xs).difference(ys)] *)
Definition difference (xs ys : list string) : gset string :=
  list_to_set xs ∖ list_to_set ys.

(** Truth value of a set. *)
Definition nonempty (X : gset string) : bool := negb (bool_decide (X = ∅)).

Definition dashes : string := Text.repeat_char "-" 40.

Definition comp : M unit :=
  with_file open_r extensions_txt
    (lines ← readlines extensions_txt;
     let extensions_file := map Text.strip lines in
     out ← popen_readlines env list_argv;
     let extensions_code := map Text.strip out in
     (if nonempty (difference extensions_code extensions_file) then
        print (String Text.LF "* CODE") ;;
        print dashes ;;
        for_each (set_order env (difference extensions_code extensions_file)) print
      else mret tt) ;;
     (if nonempty (difference extensions_file extensions_code) then
        print (String Text.LF "* FILE") ;;
        print dashes ;;
        for_each (set_order env (difference extensions_file extensions_code)) print
      else mret tt)).

Definition install : M unit :=
  with_file open_r extensions_txt
    (out ← popen_readlines env list_argv;
     let extensions_code := map Text.strip out in
     lines ← readlines extensions_txt;
     let extensions_file := map Text.strip lines in
     for_each (set_order env (difference extensions_file extensions_code))
       (λ line, run env ["code"; "--install-extension"; line])).

Definition uninstall : M unit :=
  with_file open_r extensions_txt
    (out ← popen_readlines env list_argv;
     let extensions_code := map Text.strip out in
     lines ← readlines extensions_txt;
     let extensions_file := map Text.strip lines in
     for_each (set_order env (difference extensions_code extensions_file))
       (λ line, run env ["code"; "--uninstall-extension"; line])).

(** ["vscode-settings-" + str(int(datetime.datetime.now().timestamp())) + ".jsonc"] *)
Definition snapshot_name : string :=
  "vscode-settings-" +:+ pretty (epoch env) +:+ ".jsonc".

(** The first [with] block of [restore]: the live settings file is
    copied to the snapshot. *)
Definition take_snapshot (p : option string) : M unit :=
  live ← local "p" p;
  with_file open_r (expanduser live)
    (with_file (open_w env) snapshot_name
       (text ← read (expanduser live);
        write snapshot_name text)).

(** The second [with] block: the backup is written to [p]. *)
Definition write_back (p : option string) : M unit :=
  with_file open_r settings_jsonc
    (live ← local "p" p;
     with_file (open_w env) live
       (text ← read settings_jsonc;
        write live text)).

Definition restore : M unit :=
  p ← settings_path;
  take_snapshot p ;;
  write_back p.

End Operations.

(** ** [difflib.unified_diff]

    [diff] hands its two line lists to [difflib.unified_diff], which
    drives a [SequenceMatcher(None, a, b)]: no junk predicate, the
    automatic junk heuristic left on.  The functions below follow
    [difflib.py] one by one.  Positions are natural numbers; where the
    Python code computes [i-k+1] the model writes [i+1-k]. *)

Module Difflib.

Inductive tag := Replace | Delete | Insert | Equal.

Global Instance tag_eq_dec : EqDecision tag.
Proof. solve_decision. Defined.

(** An opcode [(tag, i1, i2, j1, j2)] and a match [(i, j, size)]. *)
Definition opcode : Type := tag * nat * nat * nat * nat.
Definition block : Type := nat * nat * nat.

(** The loop over [enumerate(b)] of [__chain_b], started at
    position [i]. *)
Fixpoint index_b (i : nat) (b : list string)
    (b2j : gmap string (list nat)) : gmap string (list nat) :=
  match b with
  | [] => b2j
  | elt :: b' =>
      index_b (S i) b' (<[elt := default [] (b2j !! elt) ++ [i]]> b2j)
  end.

(** [__chain_b]: with [isjunk] absent only the popular elements are
    purged, and only for 200 elements or more. *)
Definition chain_b (b : list string) : gmap string (list nat) :=
  let b2j := index_b 0 b ∅ in
  let n := length b in
  if 200 <=? n then
    let ntest := n / 100 + 1 in
    filter (λ kv : string * list nat, length kv.2 ≤ ntest) b2j
  else b2j.

(** [self.bjunk], empty because [isjunk] is [None]. *)
Definition bjunk : gset string := ∅.

Definition isbjunk (x : option string) : bool :=
  match x with Some e => bool_decide (e ∈ bjunk) | None => false end.

(** [j2len.get(j-1, 0)] *)
Definition j2lenget (j2len : gmap nat nat) (j : nat) : nat :=
  match j with O => 0 | S j' => default 0 (j2len !! j') end.

(** The loop [for j in b2j.get(a[i], nothing)] of
    [find_longest_match], with its [continue] and [break]. *)
Fixpoint scan_row (j2len : gmap nat nat) (i blo bhi : nat) (js : list nat)
    (newj2len : gmap nat nat) (best : block) : gmap nat nat * block :=
  match js with
  | [] => (newj2len, best)
  | j :: js' =>
      if j <? blo then scan_row j2len i blo bhi js' newj2len best
      else if bhi <=? j then (newj2len, best)
      else
        let k := j2lenget j2len j + 1 in
        let best' :=
          if best.2 <? k then (i + 1 - k, j + 1 - k, k) else best in
        scan_row j2len i blo bhi js' (<[j := k]> newj2len) best'
  end.

(** The loop [for i in range(alo, ahi)]. *)
Fixpoint scan_rows (a : list string) (b2j : gmap string (list nat))
    (blo bhi : nat) (rows : list nat) (j2len : gmap nat nat)
    (best : block) : block :=
  match rows with
  | [] => best
  | i :: rows' =>
      let js :=
        match a !! i with
        | Some x => default [] (b2j !! x)
        | None => []
        end in
      let '(newj2len, best') := scan_row j2len i blo bhi js ∅ best in
      scan_rows a b2j blo bhi rows' newj2len best'
  end.

(** The two kinds of [while] loops that grow a match downwards and
    upwards; [junk] tells whether the loop takes junk or non-junk
    elements.  The first recurses on [besti], the second on the room
    left below [ahi]. *)
Fixpoint grow_down (a b : list string) (junk : bool) (alo blo : nat)
    (besti bestj bestsize : nat) : block :=
  match besti with
  | O => (besti, bestj, bestsize)
  | S i' =>
      if (alo <? besti) && (blo <? bestj)
         && bool_decide (isbjunk (b !! (bestj - 1)) = junk)
         && bool_decide (a !! (besti - 1) = b !! (bestj - 1))
      then grow_down a b junk alo blo i' (bestj - 1) (bestsize + 1)
      else (besti, bestj, bestsize)
  end.

Fixpoint grow_up (a b : list string) (junk : bool) (ahi bhi : nat)
    (room : nat) (besti bestj bestsize : nat) : block :=
  match room with
  | O => (besti, bestj, bestsize)
  | S room' =>
      if (besti + bestsize <? ahi) && (bestj + bestsize <? bhi)
         && bool_decide (isbjunk (b !! (bestj + bestsize)) = junk)
         && bool_decide (a !! (besti + bestsize) = b !! (bestj + bestsize))
      then grow_up a b junk ahi bhi room' besti bestj (bestsize + 1)
      else (besti, bestj, bestsize)
  end.

Definition find_longest_match (a b : list string)
    (b2j : gmap string (list nat)) (alo ahi blo bhi : nat) : block :=
  let '(besti, bestj, bestsize) :=
    scan_rows a b2j blo bhi (seq alo (ahi - alo)) ∅ (alo, blo, 0) in
  let '(besti, bestj, bestsize) :=
    grow_down a b false alo blo besti bestj bestsize in
  let '(besti, bestj, bestsize) :=
    grow_up a b false ahi bhi (ahi - (besti + bestsize)) besti bestj bestsize in
  let '(besti, bestj, bestsize) :=
    grow_down a b true alo blo besti bestj bestsize in
  grow_up a b true ahi bhi (ahi - (besti + bestsize)) besti bestj bestsize.

(** The [while queue] loop of [get_matching_blocks]; the queue is
    used as a stack, its top is the head of the list.  Every round
    takes a range off and puts back ranges that together are shorter,
    so [2 * len(a) + 1] rounds are enough (lemma [match_loop_fuel]). *)
Fixpoint match_loop (fuel : nat) (a b : list string)
    (b2j : gmap string (list nat)) (queue : list (nat * nat * nat * nat))
    (matching_blocks : list block) : list block :=
  match fuel, queue with
  | _, [] => matching_blocks
  | O, _ => matching_blocks
  | S fuel', (alo, ahi, blo, bhi) :: queue' =>
      let '(i, j, k) := find_longest_match a b b2j alo ahi blo bhi in
      if 0 <? k then
        let q1 :=
          if (alo <? i) && (blo <? j) then [(alo, i, blo, j)] else [] in
        let q2 :=
          if (i + k <? ahi) && (j + k <? bhi) then [(i + k, ahi, j + k, bhi)]
          else [] in
        match_loop fuel' a b b2j (q2 ++ q1 ++ queue')
          (matching_blocks ++ [(i, j, k)])
      else match_loop fuel' a b b2j queue' matching_blocks
  end.

(** Tuples compare lexicographically. *)
Definition block_leb (x y : block) : bool :=
  let '(i1, j1, k1) := x in
  let '(i2, j2, k2) := y in
  (i1 <? i2) || ((i1 =? i2) && ((j1 <? j2) || ((j1 =? j2) && (k1 <=? k2)))).

Fixpoint insert_block (x : block) (l : list block) : list block :=
  match l with
  | [] => [x]
  | y :: l' => if block_leb x y then x :: l else y :: insert_block x l'
  end.

(** [matching_blocks.sort()] *)
Definition sort_blocks (l : list block) : list block :=
  foldr insert_block [] l.

(** The loop that merges adjacent blocks. *)
Fixpoint collapse (cur : block) (l : list block) : list block :=
  let '(i1, j1, k1) := cur in
  match l with
  | [] => if 0 <? k1 then [cur] else []
  | (i2, j2, k2) :: l' =>
      if (i1 + k1 =? i2) && (j1 + k1 =? j2) then collapse (i1, j1, k1 + k2) l'
      else (if 0 <? k1 then [cur] else []) ++ collapse (i2, j2, k2) l'
  end.

Definition get_matching_blocks (a b : list string) : list block :=
  let la := length a in
  let lb := length b in
  let matching_blocks :=
    match_loop (2 * la + 1) a b (chain_b b) [(0, la, 0, lb)] [] in
  collapse (0, 0, 0) (sort_blocks matching_blocks) ++ [(la, lb, 0)].

Fixpoint opcodes_from (i j : nat) (blocks : list block) : list opcode :=
  match blocks with
  | [] => []
  | (ai, bj, size) :: blocks' =>
      let gap :=
        if (i <? ai) && (j <? bj) then [(Replace, i, ai, j, bj)]
        else if i <? ai then [(Delete, i, ai, j, bj)]
        else if j <? bj then [(Insert, i, ai, j, bj)]
        else [] in
      let same :=
        if 0 <? size then [(Equal, ai, ai + size, bj, bj + size)] else [] in
      gap ++ same ++ opcodes_from (ai + size) (bj + size) blocks'
  end.

Definition get_opcodes (a b : list string) : list opcode :=
  opcodes_from 0 0 (get_matching_blocks a b).

Definition tag_of (c : opcode) : tag := c.1.1.1.1.

(** [codes[0] = ...] and [codes[-1] = ...] of [get_grouped_opcodes]. *)
Definition trim_first (n : nat) (codes : list opcode) : list opcode :=
  match codes with
  | (Equal, i1, i2, j1, j2) :: rest =>
      (Equal, i1 `max` (i2 - n), i2, j1 `max` (j2 - n), j2) :: rest
  | _ => codes
  end.

Fixpoint trim_last (n : nat) (codes : list opcode) : list opcode :=
  match codes with
  | [] => []
  | [(Equal, i1, i2, j1, j2)] =>
      [(Equal, i1, i2 `min` (i1 + n), j1, j2 `min` (j1 + n))]
  | c :: rest => c :: trim_last n rest
  end.

(** The grouping loop; [group] is the group being filled. *)
Fixpoint group_loop (n : nat) (codes : list opcode) (group : list opcode)
    : list (list opcode) :=
  match codes with
  | [] =>
      match group with
      | [] => []
      | [(Equal, _, _, _, _)] => []
      | _ => [group]
      end
  | (t, i1, i2, j1, j2) :: rest =>
      if bool_decide (t = Equal) && (n + n <? i2 - i1) then
        (group ++ [(t, i1, i2 `min` (i1 + n), j1, j2 `min` (j1 + n))])
        :: group_loop n rest [(t, i1 `max` (i2 - n), i2, j1 `max` (j2 - n), j2)]
      else group_loop n rest (group ++ [(t, i1, i2, j1, j2)])
  end.

Definition get_grouped_opcodes (a b : list string) (n : nat)
    : list (list opcode) :=
  let codes := get_opcodes a b in
  let codes := match codes with [] => [(Equal, 0, 1, 0, 1)] | _ => codes end in
  group_loop n (trim_last n (trim_first n codes)) [].

Definition format_range_unified (start stop : nat) : string :=
  let beginning := start + 1 in
  let length := stop - start in
  if length =? 1 then pretty beginning
  else
    let beginning := if length =? 0 then beginning - 1 else beginning in
    pretty beginning +:+ "," +:+ pretty length.

(** [a[i1:i2]] *)
Definition slice (a : list string) (i1 i2 : nat) : list string :=
  take (i2 - i1) (drop i1 a).

Definition opcode_lines (a b : list string) (c : opcode) : list string :=
  let '(t, i1, i2, j1, j2) := c in
  match t with
  | Equal => map (String " ") (slice a i1 i2)
  | Replace => map (String "-") (slice a i1 i2) ++ map (String "+") (slice b j1 j2)
  | Delete => map (String "-") (slice a i1 i2)
  | Insert => map (String "+") (slice b j1 j2)
  end.

Definition group_lines (a b : list string) (lineterm : string)
    (group : list opcode) : list string :=
  match group, last group with
  | (_, f1, _, f3, _) :: _, Some (_, _, l2, _, l4) =>
      ("@@ -" +:+ format_range_unified f1 l2 +:+ " +"
         +:+ format_range_unified f3 l4 +:+ " @@" +:+ lineterm)
      :: concat (map (opcode_lines a b) group)
  | _, _ => []
  end.

(** [unified_diff(a, b, fromfile, tofile)], file dates left empty. *)
Definition unified_diff (a b : list string) (fromfile tofile : string)
    (n : nat) (lineterm : string) : list string :=
  match get_grouped_opcodes a b n with
  | [] => []
  | groups =>
      ("--- " +:+ fromfile +:+ lineterm)
      :: ("+++ " +:+ tofile +:+ lineterm)
      :: concat (map (group_lines a b lineterm) groups)
  end.

End Difflib.

(** ** The settings diff and the command line *)

Section Program.
Context (env : Env) (sh : Shell).

Definition nl : string := String Text.LF EmptyString.

Definition diff : M unit :=
  with_file open_r settings_jsonc
    (p ← settings_path env;
     live ← local "p" p;
     with_file open_r (expanduser env live)
       (before ← readlines settings_jsonc;
        after ← readlines (expanduser env live);
        writelines
          (Difflib.unified_diff before after "before.json" "after.json" 3 nl))).

Definition usage_options : string := "
OPTION
    backup     Backup extensions list to vscode-extension.txt
               and settings to vscode-settings.jsonc

    comp       Compare list between vscode-extensions.txt file and system
    install    Install extensions from vscode-extensions.txt
    uninstall  Uninstall extensions from vscode-extensions.txt

    diff       Compare vscode-settings.jsonc and system's settings.json
    restore    Restore vscode-settings.jsonc file to system's settings.json
".

Definition man : M unit :=
  print ("Usage: " +:+ argv0 env +:+ " [OPTION]") ;;
  print usage_options.

Definition FUNCTIONS : gmap string (M unit) :=
  <["backup" := backup env sh]>
  (<["diff" := diff]>
  (<["comp" := comp env]>
  (<["restore" := restore env]>
  (<["install" := install env]>
  (<["uninstall" := uninstall env]> ∅))))).

(** The dispatch of the [__main__] block; [sys.argv] is the script
    name followed by [args]. *)
Definition main : M unit :=
  match args env with
  | [name] =>
      match FUNCTIONS !! name with
      | Some f => f
      | None => man
      end
  | _ => man
  end.

End Program.

(** The state a file system is in before the program has done
    anything. *)
Definition initial (f : gmap string string) (d : gset string) : State :=
  {| files := f; dirs := d; stdout := []; trace := [] |}.

(** ** Replaying a log

    What a logged system call does to the files.  A shell copy and a
    child writing to a file it inherited are outside the log's detail
    and replay as no change; [restore] makes neither. *)
Definition replay_event (f : gmap string string) (ev : event)
    : gmap string string :=
  match ev with
  | EvOpen path ModeW => <[path := EmptyString]> f
  | EvWrite path data => <[path := default EmptyString (f !! path) +:+ data]> f
  | _ => f
  end.

Definition replay (f : gmap string string) (evs : list event)
    : gmap string string :=
  foldl replay_event f evs.

(** ** Vocabulary of the statements *)

Definition add_out (chunks : list string) (s : State) : State :=
  {| files := files s; dirs := dirs s; stdout := stdout s ++ chunks;
     trace := trace s |}.

Definition add_trace (evs : list event) (s : State) : State :=
  {| files := files s; dirs := dirs s; stdout := stdout s;
     trace := trace s ++ evs |}.

(** The identifiers the reconciler works with: the stripped lines of
    the recorded file, read in text mode, and the stripped lines of the
    pipe. *)
Definition recorded_ids (content : string) : list string :=
  map Text.strip (Text.readlines (Text.universal_newlines content)).

Definition live_ids (env : Env) : list string :=
  map Text.strip (Text.readlines (listed env)).

(** One section of the report of [comp] as it appears on standard
    output: nothing for no identifier, otherwise the title, the rule
    and one line per identifier. *)
Definition section_chunks (title : string) (ids : list string) : list string :=
  match ids with
  | [] => []
  | _ => (title +:+ nl) :: (dashes +:+ nl) :: map (λ x, x +:+ nl) ids
  end.

Definition code_title : string := String Text.LF "* CODE".
Definition file_title : string := String Text.LF "* FILE".

(** The six command names. *)
Definition commands : list string :=
  ["backup"; "comp"; "install"; "uninstall"; "diff"; "restore"].

(** The argument vectors of the two loops, and the logged start of a
    [code] process. *)
Definition install_argv (line : string) : list string :=
  ["code"; "--install-extension"; line].
Definition uninstall_argv (line : string) : list string :=
  ["code"; "--uninstall-extension"; line].

Definition spawned (env : Env) (argv : list string) : event :=
  EvSpawn argv (code_status env argv).

(** What the editor has done to the disk [d] after the invocations
    [mk x], for the [x] of [ids] in turn. *)
Definition effects (env : Env) (mk : string → list string)
    (ids : list string) (d : gmap string string * gset string)
    : gmap string string * gset string :=
  foldl (λ d x, code_effect env (mk x) d) d ids.

(** The path at which the live settings file is read, when the
    platform has one. *)
Definition live_settings (env : Env) : option string :=
  if is_linux env then Some (expanduser env linux_settings)
  else if truthy (IS_WINDOWS env) then
    (λ appdata, expanduser env (windows_settings appdata)) <$> APPDATA env
  else None.

(** The shell command of [backup] on this platform and the file it
    copies from, if the platform has one. *)
Definition copy_source (env : Env) : option (string * string) :=
  if is_linux env then
    Some ("cp ~/.config/Code/User/settings.json ./vscode-settings.jsonc",
          expanduser env linux_settings)
  else if truthy (IS_WINDOWS env) then
    (λ appdata,
       ("copy " +:+ windows_settings appdata +:+ " .\vscode-settings.jsonc",
        windows_settings appdata)) <$> APPDATA env
  else None.

(** The files [backup] leaves, as a function of the files it finds. *)
Definition backup_files (env : Env) (sh : Shell) (f : gmap string string)
    : gmap string string :=
  if can_spawn env then
    let f1 := <[extensions_txt := listed env]> f in
    match copy_source env with
    | Some (command, src) =>
        match f1 !! src with
        | Some c =>
            if shell_copies sh command then <[settings_jsonc := c]> f1 else f1
        | None => f1
        end
    | None => f1
    end
  else <[extensions_txt := EmptyString]> f.

(** A string that can stand on one line: no line feed and no carriage
    return in it. *)
Fixpoint is_line (s : string) : bool :=
  match s with
  | EmptyString => true
  | String c r =>
      negb (Ascii.eqb c Text.LF) && negb (Ascii.eqb c Text.CR) && is_line r
  end.

(** An environment in which the editor lists the single line [l], and
    a state whose recorded file holds the single line [r]. *)
Definition one_line_env (env : Env) (l : string) : Env :=
  {| sys_platform := sys_platform env; HOME := HOME env;
     APPDATA := APPDATA env; argv0 := argv0 env; args := args env;
     epoch := epoch env; code_on_path := true;
     code_list_extensions := l +:+ nl;
     code_status := code_status env; code_effect := code_effect env;
     set_order := set_order env |}.

Definition one_line_state (r : string) : State :=
  initial {[ extensions_txt := r +:+ nl ]} ∅.

(** The three operations take the recorded line [r] and the listed line
    [l] for the same identifier: [comp] reports nothing, [install] and
    [uninstall] start nothing but the listing. *)
Definition matched (env : Env) (r l : string) : Prop :=
  let env' := one_line_env env l in
  let quiet :=
    [EvOpen extensions_txt ModeR; spawned env' list_argv;
     EvClose extensions_txt] in
  stdout (comp env' (one_line_state r)).2 = [] ∧
  trace (install env' (one_line_state r)).2 = quiet ∧
  trace (uninstall env' (one_line_state r)).2 = quiet.

(** ** Vocabulary for [restore] *)

(** A component of a Windows path that [pathlib] keeps as it is. *)
Definition plain_component (x : string) : bool :=
  negb (Text.is_empty x) && negb (String.eqb x ".")
  && negb (Text.has_char "/" x).

(** An absolute Windows path in normal form: a drive letter, a colon
    and then one or more components, each led in by one backslash, as
    in [C:\Users\u\AppData\Roaming].  [pathlib] leaves such a path as
    it is and [expanduser] has nothing to expand in it, so that
    [windows_settings] is the path the program opens. *)
Definition drive_path (a : string) : bool :=
  match a with
  | String d (String colon (String sep rest)) =>
      Text.is_letter d && Ascii.eqb colon ":" && Ascii.eqb sep "\"
      && forallb plain_component (Text.split_on "\" rest)
  | _ => false
  end.

(** The log of the first step of [restore] when it goes through: the
    live file is opened, the snapshot is created, written and closed,
    the live file is closed. *)
Definition snapshot_events (env : Env) (live A : string) : list event :=
  [EvOpen live ModeR; EvOpen (snapshot_name env) ModeW;
   EvWrite (snapshot_name env) (Text.universal_newlines A);
   EvClose (snapshot_name env); EvClose live].

(** What a run of [restore] can be: it stops before any file is
    opened, it stops at the missing live file, or it takes the snapshot
    and then stops at the missing backup, stops at [p] that cannot be
    created, or writes the backup to [p]. *)
Inductive restore_run (env : Env) (s : State) : result unit * State → Prop :=
| RunNoPath e :
    live_settings env = None →
    restore_run env s (Raise e, s)
| RunNoLive p :
    settings_path env s = (Ok (Some p), s) →
    files s !! expanduser env p = None →
    restore_run env s
      (Raise (FileNotFoundError (expanduser env p)),
       add_trace [EvOpenFailed (expanduser env p) ModeR] s)
| RunNoBackup p A :
    settings_path env s = (Ok (Some p), s) →
    files s !! expanduser env p = Some A →
    files s !! settings_jsonc = None →
    restore_run env s
      (Raise (FileNotFoundError settings_jsonc),
       add_trace (snapshot_events env (expanduser env p) A
                  ++ [EvOpenFailed settings_jsonc ModeR])
         (set_files (<[snapshot_name env := Text.universal_newlines A]> (files s)) s))
| RunBlocked p A B :
    settings_path env s = (Ok (Some p), s) →
    files s !! expanduser env p = Some A →
    files s !! settings_jsonc = Some B →
    files s !! p = None →
    can_create env s p = false →
    restore_run env s
      (Raise (FileNotFoundError p),
       add_trace (snapshot_events env (expanduser env p) A
                  ++ [EvOpen settings_jsonc ModeR; EvOpenFailed p ModeW;
                      EvClose settings_jsonc])
         (set_files (<[snapshot_name env := Text.universal_newlines A]> (files s)) s))
| RunWritten p A B :
    settings_path env s = (Ok (Some p), s) →
    files s !! expanduser env p = Some A →
    files s !! settings_jsonc = Some B →
    restore_run env s
      (Ok tt,
       add_trace (snapshot_events env (expanduser env p) A
                  ++ [EvOpen settings_jsonc ModeR; EvOpen p ModeW;
                      EvWrite p (Text.universal_newlines B); EvClose p;
                      EvClose settings_jsonc])
         (set_files (<[p := Text.universal_newlines B]>
                       (<[snapshot_name env := Text.universal_newlines A]> (files s))) s)).

(** The path an event opens for writing, tries to, or writes. *)
Definition target (ev : event) : option string :=
  match ev with
  | EvOpen q ModeW | EvOpenFailed q ModeW | EvWrite q _ => Some q
  | _ => None
  end.

(** The snapshot is complete in the log [pre]: the platform has a live
    settings file, it held [A] before [restore], the log starts with
    the whole first step, in which the text [A], as text mode read it,
    is written to the snapshot and the snapshot closed, and replaying
    the log leaves the snapshot in place, for an ASCII text [A] with
    [A] as text mode read it. *)
Definition snapshot_done (env : Env) (f : gmap string string)
    (pre : list event) : Prop :=
  ∃ live A,
    live_settings env = Some live ∧ f !! live = Some A ∧
    snapshot_events env live A `prefix_of` pre ∧
    is_Some (replay f pre !! snapshot_name env) ∧
    (Text.is_ascii A = true →
     replay f pre !! snapshot_name env = Some (Text.universal_newlines A)).

(** In the log [T] nothing but the snapshot is opened for writing,
    written or changed before the snapshot is complete. *)
Definition snapshot_first (env : Env) (f : gmap string string)
    (T : list event) : Prop :=
  (∀ pre ev post q,
     T = pre ++ ev :: post → target ev = Some q → q ≠ snapshot_name env →
     snapshot_done env f pre) ∧
  (∀ pre q,
     pre `prefix_of` T → q ≠ snapshot_name env →
     replay f pre !! q ≠ f !! q →
     snapshot_done env f pre).

(** The run ended in a failed attempt to open a settings path, a path
    other than the backup, for reading. *)
Definition failed_opening_settings (r : result unit * State) : Prop :=
  ∃ path,
    path ≠ settings_jsonc ∧
    r.1 = Raise (FileNotFoundError path) ∧
    EvOpenFailed path ModeR ∈ trace r.2.

(** ** Vocabulary for the matcher *)

(** The positions of [x] in [b], counted from [i], in ascending order. *)
Fixpoint positions (i : nat) (x : string) (b : list string) : list nat :=
  match b with
  | [] => []
  | y :: b' => (if decide (x = y) then [i] else []) ++ positions (S i) x b'
  end.

(** [k] elements of [a] right before position [e], none below [lo],
    are all kept in [b2j]. *)
Definition np_run (a : list string) (b2j : gmap string (list nat))
    (lo e k : nat) : Prop :=
  lo + k ≤ e ∧
  ∀ t, e - k ≤ t → t < e → ∃ x, a !! t = Some x ∧ is_Some (b2j !! x).

(** What [j2len] holds when row [i] starts. *)
Definition row_inv (a : list string) (b2j : gmap string (list nat))
    (lo i : nat) (j2len : gmap nat nat) : Prop :=
  (∀ j k, j2len !! j = Some k →
     1 ≤ k ∧ np_run a b2j lo i k ∧ np_run a b2j lo (S j) k) ∧
  (∀ i' k, i = S i' → 1 ≤ k → np_run a b2j lo i k →
     ∃ kd, j2len !! i' = Some kd ∧ k ≤ kd).

(** What the best match is when row [i] starts. *)
Definition best_inv (a : list string) (b2j : gmap string (list nat))
    (lo hi i : nat) (best : Difflib.block) : Prop :=
  best.1.1 = best.1.2 ∧ lo ≤ best.1.1 ∧ best.1.1 + best.2 ≤ hi ∧
  ∀ e k, e ≤ i → np_run a b2j lo e k → k ≤ best.2.

(** The rounds a queue of ranges can still take: a range of [n] rows
    counts [2n + 1]. *)
Definition queue_measure (queue : list (nat * nat * nat * nat)) : nat :=
  sum_list_with (λ r, 2 * (r.1.1.2 - r.1.1.1) + 1) queue.

(** A range of rows is well formed. *)
Definition range_ok (r : nat * nat * nat * nat) : Prop := r.1.1.1 ≤ r.1.1.2.

(** ** Sample environments and states *)

Module Sample.

Definition linux : Env :=
  {| sys_platform := "linux"; HOME := "/home/u"; APPDATA := None;
     argv0 := "vscode-env-manager.py"; args := [];
     epoch := 1700000000%Z; code_on_path := true;
     code_list_extensions :=
       "ms-python.python" +:+ nl +:+ "golang.go" +:+ nl;
     code_status := λ _, 1%Z; code_effect := λ _ d, d;
     set_order := elements |}.

Definition windows : Env :=
  {| sys_platform := "win32"; HOME := "C:\Users\u";
     APPDATA := Some "C:\Users\u\AppData\Roaming";
     argv0 := "vscode-env-manager.py"; args := [];
     epoch := 1700000000%Z; code_on_path := true;
     code_list_extensions :=
       "ms-python.python" +:+ nl +:+ "golang.go" +:+ nl;
     code_status := λ _, 0%Z; code_effect := λ _ d, d;
     set_order := elements |}.

Definition darwin : Env :=
  {| sys_platform := "darwin"; HOME := "/Users/u"; APPDATA := None;
     argv0 := "vscode-env-manager.py"; args := [];
     epoch := 1700000000%Z; code_on_path := true;
     code_list_extensions := "ms-python.python" +:+ nl;
     code_status := λ _, 0%Z; code_effect := λ _ d, d;
     set_order := elements |}.

Definition with_args (env : Env) (l : list string) : Env :=
  {| sys_platform := sys_platform env; HOME := HOME env;
     APPDATA := APPDATA env; argv0 := argv0 env; args := l;
     epoch := epoch env; code_on_path := code_on_path env;
     code_list_extensions := code_list_extensions env;
     code_status := code_status env; code_effect := code_effect env;
     set_order := set_order env |}.

Definition posix_shell : Shell := {| shell_copies := λ _, true |}.

Definition recorded : string :=
  "golang.go" +:+ nl +:+ "rust-lang.rust-analyzer" +:+ nl
  +:+ "rust-lang.rust-analyzer" +:+ nl.

Definition linux_live : string := "/home/u/.config/Code/User/settings.json".
Definition windows_live : string :=
  "C:\Users\u\AppData\Roaming\Code\User\settings.json".

(** A working directory with the recorded list and the settings
    backup "B", and live settings "A". *)
Definition linux_state : State :=
  initial (<[extensions_txt := recorded]>
           (<[settings_jsonc := "B"]>
           (<[linux_live := "A"]> ∅))) ∅.

Definition windows_state : State :=
  initial (<[extensions_txt := recorded]>
           (<[settings_jsonc := "B"]>
           (<[windows_live := "A"]> ∅))) ∅.

(** The same Linux files, in a working directory that has a
    directory literally named "~" with [.config/Code/User] below. *)
Definition linux_state_tilde : State :=
  initial (files linux_state) {[ "~/.config/Code/User" ]}.

(** Live settings with Windows line ends. *)
Definition windows_state_crlf : State :=
  initial (<[settings_jsonc := "B"]>
           (<[windows_live :=
                String "{" (String Text.CR (String Text.LF "}"))]> ∅)) ∅.

Definition darwin_state : State :=
  initial (<[settings_jsonc := "B"]> ∅) ∅.

Definition empty_state : State := initial ∅ ∅.

End Sample.

(** ** Vocabulary of the further properties *)



(** The same environment in another run of the interpreter: string
    hashing is seeded anew in every run, so that sets may be iterated
    in another order; everything else is as in [env]. *)
Definition with_order (env : Env) (order : gset string → list string) : Env :=
  {| sys_platform := sys_platform env; HOME := HOME env;
     APPDATA := APPDATA env; argv0 := argv0 env; args := args env;
     epoch := epoch env; code_on_path := code_on_path env;
     code_list_extensions := code_list_extensions env;
     code_status := code_status env; code_effect := code_effect env;
     set_order := order |}.

(** How the three reconciler operations end when the listing cannot be
    started: the recorded file was opened and is closed again. *)
Definition quiet_failure (s : State) : result unit * State :=
  (Raise (FileNotFoundError "code"),
   add_trace [EvOpen extensions_txt ModeR; EvClose extensions_txt] s).

(** A text without carriage return. *)
Fixpoint no_cr (s : string) : bool :=
  match s with
  | EmptyString => true
  | String c r => negb (Ascii.eqb c Text.CR) && no_cr r
  end.


(** Windows with [APPDATA] set to an absolute path in normal form. *)
Definition windows_with (env : Env) (appdata : string) : Prop :=
  is_linux env = false ∧ truthy (IS_WINDOWS env) = true ∧
  APPDATA env = Some appdata ∧ drive_path appdata = true.

(** Further sample environments. *)
Module Cases.

(** Windows without the editor's command: the shell starts, the
    listing is empty. *)
Definition windows_without_code : Env :=
  {| sys_platform := "win32"; HOME := HOME Sample.windows;
     APPDATA := APPDATA Sample.windows;
     argv0 := "vscode-env-manager.py"; args := [];
     epoch := 1700000000%Z; code_on_path := false;
     code_list_extensions := EmptyString;
     code_status := λ _, 1%Z; code_effect := λ _ d, d;
     set_order := elements |}.

(** Linux without the editor's command. *)
Definition linux_without_code : Env :=
  {| sys_platform := "linux"; HOME := "/home/u"; APPDATA := None;
     argv0 := "vscode-env-manager.py"; args := [];
     epoch := 1700000000%Z; code_on_path := false;
     code_list_extensions := EmptyString;
     code_status := λ _, 127%Z; code_effect := λ _ d, d;
     set_order := elements |}.

(** Windows with [APPDATA] not set. *)
Definition windows_without_appdata : Env :=
  {| sys_platform := "win32"; HOME := HOME Sample.windows;
     APPDATA := None;
     argv0 := "vscode-env-manager.py"; args := [];
     epoch := 1700000000%Z; code_on_path := true;
     code_list_extensions := code_list_extensions Sample.windows;
     code_status := λ _, 0%Z; code_effect := λ _ d, d;
     set_order := elements |}.

(** The Windows sample one second later. *)
Definition windows_later : Env :=
  {| sys_platform := "win32"; HOME := HOME Sample.windows;
     APPDATA := APPDATA Sample.windows;
     argv0 := "vscode-env-manager.py"; args := [];
     epoch := 1700000001%Z; code_on_path := true;
     code_list_extensions := code_list_extensions Sample.windows;
     code_status := λ _, 0%Z; code_effect := λ _ d, d;
     set_order := elements |}.

(** A state with nothing but an empty recorded file. *)
Definition empty_list_state : State :=
  initial {[ extensions_txt := EmptyString ]} ∅.

(** Linux with an editor that keeps a file for every extension it
    installs. *)
Definition linux_installing : Env :=
  {| sys_platform := "linux"; HOME := "/home/u"; APPDATA := None;
     argv0 := "vscode-env-manager.py"; args := [];
     epoch := 1700000000%Z; code_on_path := true;
     code_list_extensions := code_list_extensions Sample.linux;
     code_status := λ _, 0%Z;
     code_effect := λ argv d,
       (<["/home/u/.vscode/extensions/" +:+ default EmptyString (last argv)
          := "installed"]> d.1, d.2);
     set_order := elements |}.

(** The order of iteration of another run. *)
Definition backwards (X : gset string) : list string := reverse (elements X).

End Cases.

(** ** Vocabulary for matches between two sequences *)

(** A match [(i, j, k)] that is one: it lies within the two sequences
    and pairs equal elements. *)
Definition vblock (a b : list string) (blk : Difflib.block) : Prop :=
  blk.1.1 + blk.2 ≤ length a ∧ blk.1.2 + blk.2 ≤ length b ∧
  ∀ t, t < blk.2 → a !! (blk.1.1 + t) = b !! (blk.1.2 + t).

(** What [j2len] holds when row [i] starts, for any two sequences. *)
Definition cells_ok (a b : list string) (i : nat) (j2len : gmap nat nat)
    : Prop :=
  ∀ j k, j2len !! j = Some k →
    k ≤ i ∧ k ≤ S j ∧ vblock a b (i - k, S j - k, k).

(** A range of rows and columns within the two sequences. *)
Definition range_in (a b : list string) (r : nat * nat * nat * nat) : Prop :=
  r.1.1.1 ≤ r.1.1.2 ∧ r.1.1.2 ≤ length a ∧ r.1.2 ≤ r.2 ∧ r.2 ≤ length b.

(** * Properties *)

(** ** The monad and the loops *)

Lemma add_out_nil s : add_out [] s = s.
Proof. destruct s; unfold add_out; simpl. by rewrite app_nil_r. Qed.

Lemma add_out_add_out l1 l2 s : add_out l2 (add_out l1 s) = add_out (l1 ++ l2) s.
Proof. unfold add_out; simpl. by rewrite app_assoc. Qed.

Lemma add_trace_nil s : add_trace [] s = s.
Proof. destruct s; unfold add_trace; simpl. by rewrite app_nil_r. Qed.

Lemma add_trace_add_trace l1 l2 s :
  add_trace l2 (add_trace l1 s) = add_trace (l1 ++ l2) s.
Proof. unfold add_trace; simpl. by rewrite app_assoc. Qed.

Lemma log_add_trace ev s : log ev s = add_trace [ev] s.
Proof. done. Qed.

Lemma emit_add_out c s : emit c s = add_out [c] s.
Proof. done. Qed.

Lemma bind_unfold {A B} (m : M A) (f : A → M B) s :
  (m ≫= f) s =
  match m s with (Ok a, s') => f a s' | (Raise e, s') => (Raise e, s') end.
Proof. done. Qed.

Lemma print_eq x s : print x s = (Ok tt, add_out [x +:+ nl] s).
Proof. done. Qed.

Lemma for_each_print l s :
  for_each l print s = (Ok tt, add_out (map (λ x, x +:+ nl) l) s).
Proof.
  revert s; induction l as [|x l IH]; intros s; simpl.
  - by rewrite add_out_nil.
  - rewrite bind_unfold. unfold print at 1. rewrite IH, emit_add_out.
    by rewrite add_out_add_out.
Qed.

Lemma writelines_out l s : writelines l s = (Ok tt, add_out l s).
Proof.
  unfold writelines. revert s; induction l as [|x l IH]; intros s; simpl.
  - by rewrite add_out_nil.
  - rewrite bind_unfold, IH, emit_add_out. by rewrite add_out_add_out.
Qed.

Lemma set_disk_id s : set_disk (files s, dirs s) s = s.
Proof. by destruct s. Qed.


Lemma for_each_run env l (mk : string → list string) s :
  can_spawn env = true →
  for_each l (λ line, run env (mk line)) s =
  (Ok tt,
   add_trace (map (λ x, EvSpawn (mk x) (code_status env (mk x))) l)
     (set_disk (effects env mk l (files s, dirs s)) s)).
Proof.
  intros Hs. revert s; induction l as [|x l IH]; intros s; simpl.
  - by rewrite set_disk_id, add_trace_nil.
  - rewrite bind_unfold. unfold run at 1. rewrite Hs, IH.
    unfold log, add_trace, set_disk. simpl.
    destruct (code_effect env (mk x) (files s, dirs s)) as [f d]. simpl.
    by rewrite <- app_assoc.
Qed.

(** ** Iterating a set *)

Section SetOrder.
Context (env : Env) (Hord : set_order_ok env).

Lemma set_order_elem (X : gset string) x : x ∈ set_order env X ↔ x ∈ X.
Proof. rewrite (Hord X). apply elem_of_elements. Qed.

Lemma set_order_NoDup (X : gset string) : NoDup (set_order env X).
Proof. rewrite (Hord X). apply NoDup_elements. Qed.

Lemma set_order_nil (X : gset string) : set_order env X = [] ↔ X = ∅.
Proof.
  split.
  - intros H. apply leibniz_equiv, elements_empty_inv.
    apply Permutation_nil_r. by rewrite <- (Hord X), H.
  - intros ->. apply Permutation_nil_r. by rewrite (Hord ∅), elements_empty.
Qed.

Lemma nonempty_set_order (X : gset string) :
  nonempty X = negb (bool_decide (set_order env X = [])).
Proof.
  unfold nonempty. f_equal. apply bool_decide_ext. by rewrite set_order_nil.
Qed.

Lemma set_order_difference xs ys x :
  x ∈ set_order env (difference xs ys) ↔ x ∈ xs ∧ x ∉ ys.
Proof.
  rewrite set_order_elem. unfold difference.
  rewrite elem_of_difference, !elem_of_list_to_set. done.
Qed.

Lemma section_when_nonempty title X s :
  (if nonempty X then
     print title ;; print dashes ;; for_each (set_order env X) print
   else mret tt) s
  = (Ok tt, add_out (section_chunks title (set_order env X)) s).
Proof.
  rewrite nonempty_set_order.
  destruct (set_order env X) as [|x l] eqn:E.
  - rewrite bool_decide_eq_true_2 by done. simpl. by rewrite add_out_nil.
  - rewrite bool_decide_eq_false_2 by done. cbn [negb].
    do 2 (rewrite bind_unfold, print_eq; cbv beta iota).
    by rewrite for_each_print, !add_out_add_out.
Qed.

End SetOrder.

(** ** The extension reconciler *)

Lemma readlines_eq path s :
  readlines path s =
  (Ok (Text.readlines
         (Text.universal_newlines (default EmptyString (files s !! path)))), s).
Proof. done. Qed.

Lemma popen_readlines_eq env argv s :
  can_spawn env = true →
  popen_readlines env argv s =
  (Ok (Text.readlines (listed env)),
   add_trace [EvSpawn argv (code_status env argv)] s).
Proof. intros H. unfold popen_readlines. by rewrite H. Qed.

Ltac mstep := rewrite bind_unfold; cbv beta iota.

Lemma comp_run env s content :
  set_order_ok env →
  files s !! extensions_txt = Some content →
  can_spawn env = true →
  comp env s =
  (Ok tt,
   add_trace [EvClose extensions_txt]
     (add_out
        (section_chunks code_title
           (set_order env (difference (live_ids env) (recorded_ids content)))
         ++ section_chunks file_title
           (set_order env (difference (recorded_ids content) (live_ids env))))
        (add_trace [EvOpen extensions_txt ModeR;
                    EvSpawn list_argv (code_status env list_argv)] s))).
Proof.
  intros Hord Hfile Hspawn.
  unfold comp, with_file, open_r. rewrite Hfile.
  mstep. rewrite readlines_eq. cbv beta iota.
  mstep. rewrite popen_readlines_eq by done. cbv beta iota zeta.
  mstep. rewrite (section_when_nonempty env Hord).
  cbv beta iota. rewrite (section_when_nonempty env Hord).
  simpl files. rewrite Hfile. simpl default.
  by rewrite add_out_add_out, !log_add_trace, add_trace_add_trace.
Qed.

Lemma install_run env s content :
  files s !! extensions_txt = Some content →
  can_spawn env = true →
  install env s =
  (Ok tt,
   add_trace
     ([EvOpen extensions_txt ModeR; spawned env list_argv]
      ++ map (λ x, spawned env (install_argv x))
           (set_order env (difference (recorded_ids content) (live_ids env)))
      ++ [EvClose extensions_txt])
     (set_disk
        (effects env install_argv
           (set_order env (difference (recorded_ids content) (live_ids env)))
           (files s, dirs s)) s)).
Proof.
  intros Hfile Hspawn.
  unfold install, with_file, open_r. rewrite Hfile.
  mstep. rewrite popen_readlines_eq by done. cbv beta iota zeta.
  mstep. rewrite readlines_eq. cbv beta iota zeta.
  rewrite (for_each_run env _ install_argv) by done.
  simpl files. rewrite Hfile. simpl default.
  unfold log, add_trace, set_disk, spawned. simpl.
  by rewrite <- !app_assoc.
Qed.

Lemma uninstall_run env s content :
  files s !! extensions_txt = Some content →
  can_spawn env = true →
  uninstall env s =
  (Ok tt,
   add_trace
     ([EvOpen extensions_txt ModeR; spawned env list_argv]
      ++ map (λ x, spawned env (uninstall_argv x))
           (set_order env (difference (live_ids env) (recorded_ids content)))
      ++ [EvClose extensions_txt])
     (set_disk
        (effects env uninstall_argv
           (set_order env (difference (live_ids env) (recorded_ids content)))
           (files s, dirs s)) s)).
Proof.
  intros Hfile Hspawn.
  unfold uninstall, with_file, open_r. rewrite Hfile.
  mstep. rewrite popen_readlines_eq by done. cbv beta iota zeta.
  mstep. rewrite readlines_eq. cbv beta iota zeta.
  rewrite (for_each_run env _ uninstall_argv) by done.
  simpl files. rewrite Hfile. simpl default.
  unfold log, add_trace, set_disk, spawned. simpl.
  by rewrite <- !app_assoc.
Qed.





(** The sample run of [comp]: one identifier only listed, one only
    recorded (twice in the file, once in the report). *)
Example comp_sample_output :
  stdout (comp Sample.linux Sample.linux_state).2 =
  [code_title +:+ nl; dashes +:+ nl; "ms-python.python" +:+ nl;
   file_title +:+ nl; dashes +:+ nl; "rust-lang.rust-analyzer" +:+ nl].
Proof. vm_compute. reflexivity. Qed.

(** The sample run of [install]: the one missing extension is
    installed once, and a failing status stops nothing. *)
Example install_sample_trace :
  trace (install Sample.linux Sample.linux_state).2 =
  [EvOpen extensions_txt ModeR; EvSpawn list_argv 1%Z;
   EvSpawn (install_argv "rust-lang.rust-analyzer") 1%Z;
   EvClose extensions_txt].
Proof. vm_compute. reflexivity. Qed.

(** ** Lines and stripping *)

Lemma isspace_LF : Text.isspace Text.LF = true.
Proof. reflexivity. Qed.

Lemma rstrip_app_nl s : Text.rstrip (s +:+ nl) = Text.rstrip s.
Proof.
  induction s as [|c s IH]; simpl; [done|]. by rewrite IH.
Qed.

Lemma strip_app_nl s : Text.strip (s +:+ nl) = Text.strip s.
Proof.
  unfold Text.strip. induction s as [|c s IH]; simpl; [done|].
  destruct (Text.isspace c); [done|].
  change (String c (s +:+ nl)) with (String c s +:+ nl).
  apply rstrip_app_nl.
Qed.

Lemma universal_newlines_line s :
  is_line s = true → Text.universal_newlines (s +:+ nl) = s +:+ nl.
Proof.
  induction s as [|c s IH]; simpl; [done|].
  intros [[_ Hcr]%andb_prop Hs]%andb_prop.
  apply negb_true_iff in Hcr. rewrite Hcr. by rewrite IH.
Qed.

Lemma readlines_line s :
  is_line s = true → Text.readlines (s +:+ nl) = [s +:+ nl].
Proof.
  induction s as [|c s IH]; simpl; [done|].
  intros [[Hlf _]%andb_prop Hs]%andb_prop.
  apply negb_true_iff in Hlf. rewrite Hlf. by rewrite IH.
Qed.

Lemma recorded_ids_line r :
  is_line r = true → recorded_ids (r +:+ nl) = [Text.strip r].
Proof.
  intros H. unfold recorded_ids.
  rewrite universal_newlines_line, readlines_line by done.
  simpl. by rewrite strip_app_nl.
Qed.

Lemma live_ids_line env l :
  is_line l = true → live_ids (one_line_env env l) = [Text.strip l].
Proof.
  intros H. unfold live_ids, listed. simpl.
  rewrite readlines_line by done. simpl. by rewrite strip_app_nl.
Qed.

Lemma difference_singletons (a b : string) : difference [a] [b] = ∅ ↔ a = b.
Proof.
  unfold difference. split.
  - intros H. destruct (decide (a = b)) as [|Hne]; [done|].
    assert (Ha : a ∈ (list_to_set [a] ∖ list_to_set [b] : gset string)).
    { rewrite elem_of_difference, !elem_of_list_to_set, !list_elem_of_singleton.
      done. }
    rewrite H in Ha. by apply not_elem_of_empty in Ha.
  - intros ->. apply leibniz_equiv. intros x.
    rewrite elem_of_difference. split; [tauto|].
    intros Hx. by apply not_elem_of_empty in Hx.
Qed.

Lemma can_spawn_one_line env l : can_spawn (one_line_env env l) = true.
Proof. unfold can_spawn. simpl. apply orb_true_r. Qed.

Lemma set_order_ok_one_line env l :
  set_order_ok env → set_order_ok (one_line_env env l).
Proof. done. Qed.

(** C6, as the code has it.  A recorded line and a listed line are
    taken for the same identifier by [comp], [install] and [uninstall]
    exactly when they are the same string once the white space around
    each is stripped; the comparison of the stripped strings is exact,
    so a difference of case or of any inner character separates
    them. *)
Theorem matched_iff_stripped_equal env r l :
  set_order_ok env →
  is_line r = true →
  is_line l = true →
  matched env r l ↔ Text.strip r = Text.strip l.
Proof.
  intros Hord Hr Hl.
  pose proof (set_order_ok_one_line env l Hord) as Hord'.
  pose proof (can_spawn_one_line env l) as Hspawn.
  assert (Hfile : files (one_line_state r) !! extensions_txt = Some (r +:+ nl))
    by apply lookup_singleton_eq.
  unfold matched.
  rewrite (comp_run _ _ _ Hord' Hfile Hspawn).
  rewrite (install_run _ _ _ Hfile Hspawn), (uninstall_run _ _ _ Hfile Hspawn).
  rewrite recorded_ids_line, live_ids_line by done. simpl.
  split.
  - intros (Hout & _ & _).
    apply app_eq_nil in Hout as [Hc _].
    destruct (set_order env (difference [Text.strip l] [Text.strip r]))
      eqn:E; [|done].
    apply (set_order_nil _ Hord) in E.
    symmetry. by apply difference_singletons.
  - intros Heq. rewrite Heq.
    assert (E : difference [Text.strip l] [Text.strip l] = ∅)
      by by apply difference_singletons.
    rewrite E.
    assert (E0 : set_order env ∅ = []) by by apply (set_order_nil _ Hord).
    rewrite E0. done.
Qed.

Lemma matched_iff_stripped_equal_witness :
  set_order_ok Sample.linux ∧
  is_line "Golang.Go" = true ∧
  is_line "golang.go" = true ∧
  ¬ matched Sample.linux "Golang.Go" "golang.go".
Proof.
  assert (H1 : set_order_ok Sample.linux) by (intros X; reflexivity).
  split_and!; [exact H1 | reflexivity | reflexivity |].
  intros Hm.
  apply (matched_iff_stripped_equal Sample.linux "Golang.Go" "golang.go" H1
           eq_refl eq_refl) in Hm.
  vm_compute in Hm. discriminate Hm.
Defined.

(** C6, as the claim has it, fails: a recorded line with a trailing
    blank and the listed line without it differ as strings, and the
    three operations still take them for the same identifier. *)
Lemma matched_not_exact_equality :
  ¬ (∀ r l : string, matched Sample.linux r l ↔ r = l).
Proof.
  intros H. specialize (H "golang.go " "golang.go").
  assert (Hm : matched Sample.linux "golang.go " "golang.go")
    by (vm_compute; auto).
  apply H in Hm. discriminate Hm.
Qed.

(** ** Paths *)

Lemma last_char_app a b :
  Text.last_char (a +:+ b) =
  match Text.last_char b with Some c => Some c | None => Text.last_char a end.
Proof.
  induction a as [|c a IH].
  - change (EmptyString +:+ b) with b. by destruct (Text.last_char b).
  - change (String c a +:+ b) with (String c (a +:+ b)). simpl.
    rewrite IH. by destruct (Text.last_char b).
Qed.

Lemma string_length_app (a b : string) :
  String.length (a +:+ b) = String.length a + String.length b.
Proof.
  induction a as [|c a IH]; [done|].
  change (String c a +:+ b) with (String c (a +:+ b)). simpl. by rewrite IH.
Qed.

Lemma string_app_inv_tail (a b c : string) : a +:+ c = b +:+ c → a = b.
Proof.
  revert b. induction a as [|x a IH]; intros [|y b] H.
  - done.
  - apply (f_equal String.length) in H.
    change (String.length c = S (String.length (b +:+ c))) in H.
    rewrite (string_length_app b c) in H. lia.
  - apply (f_equal String.length) in H.
    change (S (String.length (a +:+ c)) = String.length c) in H.
    rewrite (string_length_app a c) in H. lia.
  - change (String x (a +:+ c) = String y (b +:+ c)) in H.
    injection H as -> H. f_equal. by apply IH.
Qed.

Lemma dirname_cons env c s :
  dirname env (String c s) = None ↔ is_sep env c = false ∧ dirname env s = None.
Proof.
  simpl. destruct (dirname env s); [split; [done|by intros [_ ?]]|].
  destruct (is_sep env c); split; (done || by intros [? _]).
Qed.

Lemma dirname_app env a b :
  dirname env a = None → dirname env b = None → dirname env (a +:+ b) = None.
Proof.
  intros Ha Hb. induction a as [|c a IH]; [done|].
  apply dirname_cons in Ha as [Hc Ha].
  change (String c a +:+ b) with (String c (a +:+ b)).
  apply dirname_cons. auto.
Qed.

Lemma not_sep env c :
  Ascii.eqb c "/" = false → Ascii.eqb c "\" = false → is_sep env c = false.
Proof.
  intros H1 H2. unfold is_sep. rewrite H1, H2. by destruct (truthy _).
Qed.

Lemma dirname_pretty_N_go env x s :
  dirname env s = None → dirname env (pretty_N_go x s) = None.
Proof.
  revert s. induction (N.lt_wf_0 x) as [x _ IH]; intros s Hs.
  assert (x = 0 ∨ 0 < x)%N as [->|?] by lia.
  - by rewrite pretty_N_go_0.
  - rewrite pretty_N_go_step by done. apply IH.
    { by apply N.div_lt. }
    apply dirname_cons. split; [|done].
    apply not_sep; unfold pretty_N_char; by repeat case_match.
Qed.

Lemma dirname_pretty_Z env (z : Z) : dirname env (pretty z) = None.
Proof.
  assert (HN : ∀ n : N, dirname env (pretty n) = None).
  { intros n. unfold pretty, pretty_N. case_decide.
    - apply dirname_cons. split; [by apply not_sep|done].
    - by apply dirname_pretty_N_go. }
  destruct z as [|q|q]; unfold pretty, pretty_Z.
  - apply dirname_cons. split; [by apply not_sep|done].
  - apply HN.
  - apply dirname_app; [|apply HN].
    apply dirname_cons. split; [by apply not_sep|done].
Qed.

Lemma dirname_snapshot env : dirname env (snapshot_name env) = None.
Proof.
  unfold snapshot_name.
  repeat (apply dirname_app || apply dirname_pretty_Z).
  - repeat (apply dirname_cons; split; [by apply not_sep|]). done.
  - repeat (apply dirname_cons; split; [by apply not_sep|]). done.
Qed.

Lemma dirname_extensions_txt env : dirname env extensions_txt = None.
Proof.
  unfold extensions_txt.
  repeat (apply dirname_cons; split; [by apply not_sep|]). done.
Qed.

Lemma last_char_snapshot env : Text.last_char (snapshot_name env) = Some "c"%char.
Proof. unfold snapshot_name. by rewrite !last_char_app. Qed.

Lemma snapshot_ne_backup env : snapshot_name env ≠ settings_jsonc.
Proof. unfold snapshot_name, settings_jsonc. simpl. intros [=]. Qed.

Lemma last_char_settings_path env p s s' :
  settings_path env s = (Ok (Some p), s') →
  Text.last_char p = Some "n"%char ∧
  Text.last_char (expanduser env p) = Some "n"%char.
Proof.
  unfold settings_path. destruct (is_linux env).
  - intros [= <- _]. split; [done|]. simpl. by rewrite last_char_app.
  - destruct (truthy _); [|done]. destruct (APPDATA env) as [ad|]; [|done].
    intros [= <- _]. unfold windows_settings.
    split; [by rewrite last_char_app|].
    destruct ad as [|c ad]; [done|]. simpl.
    destruct (Ascii.eqb c "~").
    + by rewrite !last_char_app.
    + change (String c (ad +:+ ?x)) with (String c ad +:+ x).
      by rewrite last_char_app.
Qed.

(** ** The command line *)

Lemma FUNCTIONS_other env sh name :
  name ∉ commands → FUNCTIONS env sh !! name = None.
Proof.
  intros H. unfold FUNCTIONS.
  rewrite !lookup_insert_ne, lookup_empty; [done|..];
    intros <-; apply H; unfold commands; set_solver.
Qed.

Lemma man_run env s :
  man env s =
  (Ok tt,
   add_out [("Usage: " +:+ argv0 env +:+ " [OPTION]") +:+ nl;
            usage_options +:+ nl] s).
Proof.
  unfold man. rewrite bind_unfold, print_eq. cbv beta iota.
  by rewrite print_eq, add_out_add_out.
Qed.

(** C4.  With anything but exactly one of the six command names after
    the script name (no argument, another word, more than one word) the
    program prints the usage text to standard output and does nothing
    else: no file is touched, no process started, and the exit status
    is 0. *)
Theorem main_usage env sh s :
  (∀ c, c ∈ commands → args env ≠ [c]) →
  main env sh s =
    (Ok tt,
     add_out [("Usage: " +:+ argv0 env +:+ " [OPTION]") +:+ nl;
              usage_options +:+ nl] s) ∧
  exit_status (main env sh s).1 = 0%Z ∧
  files (main env sh s).2 = files s ∧
  trace (main env sh s).2 = trace s.
Proof.
  intros H.
  assert (E : main env sh s = man env s).
  { unfold main. destruct (args env) as [|name [|]] eqn:Ea; try done.
    rewrite FUNCTIONS_other; [done|]. intros Hc. by apply (H name). }
  rewrite E, man_run. done.
Qed.

Lemma main_usage_witness :
  (∀ c, c ∈ commands → args (Sample.with_args Sample.linux ["backup"; "now"]) ≠ [c]) ∧
  exit_status
    (main (Sample.with_args Sample.linux ["backup"; "now"]) Sample.posix_shell
       Sample.linux_state).1 = 0%Z.
Proof.
  assert (H : ∀ c, c ∈ commands →
              args (Sample.with_args Sample.linux ["backup"; "now"]) ≠ [c])
    by (intros c _; simpl; discriminate).
  split; [exact H|].
  exact (proj1 (proj2
    (main_usage (Sample.with_args Sample.linux ["backup"; "now"])
       Sample.posix_shell Sample.linux_state H))).
Defined.

(** The three ways of the claim, run: no argument, an unknown word,
    one word too many. *)
Example main_usage_samples :
  let usage :=
    ["Usage: vscode-env-manager.py [OPTION]" +:+ nl; usage_options +:+ nl] in
  ∀ l, l ∈ [[]; ["Backup"]; ["backup"; "now"]] →
    main (Sample.with_args Sample.linux l) Sample.posix_shell Sample.linux_state
    = (Ok tt, add_out usage Sample.linux_state).
Proof.
  intros usage l Hl.
  repeat (apply elem_of_cons in Hl as [->|Hl]; [vm_compute; reflexivity|]).
  by apply elem_of_nil in Hl.
Qed.

(** A command name alone is dispatched to its operation. *)
Example main_dispatch env sh :
  args env = ["restore"] → main env sh = restore env.
Proof. intros H. unfold main. by rewrite H. Qed.

(** ** Capture *)

Lemma can_create_bare env s path :
  dirname env path = None → can_create env s path = true.
Proof. intros H. unfold can_create. by rewrite H. Qed.

Lemma open_w_bare env s path :
  dirname env path = None →
  open_w env path s =
  (Ok tt, log (EvOpen path ModeW) (set_files (<[path := EmptyString]> (files s)) s)).
Proof.
  intros H. unfold open_w. rewrite (can_create_bare env s path H).
  by rewrite orb_true_r.
Qed.

Lemma capture_list_files env s :
  files (with_file (open_w env) extensions_txt
           (run_to_file env list_argv extensions_txt) s).2 =
  if can_spawn env then <[extensions_txt := listed env]> (files s)
  else <[extensions_txt := EmptyString]> (files s).
Proof.
  unfold with_file. rewrite open_w_bare by apply dirname_extensions_txt.
  unfold run_to_file. destruct (can_spawn env); simpl; [|done].
  rewrite lookup_insert_eq. simpl. by rewrite insert_insert_eq.
Qed.

Lemma capture_list_result env s :
  (with_file (open_w env) extensions_txt
     (run_to_file env list_argv extensions_txt) s).1 =
  if can_spawn env then Ok tt else Raise (FileNotFoundError "code").
Proof.
  unfold with_file. rewrite open_w_bare by apply dirname_extensions_txt.
  unfold run_to_file. by destruct (can_spawn env).
Qed.

Lemma shell_copy_files sh command src dst s :
  (shell_copy sh command src dst s).1 = Ok tt ∧
  files (shell_copy sh command src dst s).2 =
  match files s !! src with
  | Some c => if shell_copies sh command then <[dst := c]> (files s) else files s
  | None => files s
  end.
Proof.
  unfold shell_copy. destruct (files s !! src); [|done].
  by destruct (shell_copies sh command).
Qed.

Lemma backup_files_spec env sh s :
  files (backup env sh s).2 = backup_files env sh (files s).
Proof.
  unfold backup, backup_files, copy_source. rewrite bind_unfold.
  pose proof (capture_list_files env s) as Hf.
  pose proof (capture_list_result env s) as Hr.
  destruct (with_file (open_w env) extensions_txt
              (run_to_file env list_argv extensions_txt) s) as [r s1].
  simpl in Hf, Hr. subst r. destruct (can_spawn env); [|done].
  rewrite <- Hf.
  destruct (is_linux env).
  { by rewrite (proj2 (shell_copy_files _ _ _ _ _)). }
  destruct (truthy (IS_WINDOWS env)); [|done].
  destruct (APPDATA env) as [ad|]; [|done]. simpl.
  by rewrite (proj2 (shell_copy_files _ _ _ _ _)).
Qed.

Lemma copy_source_ne env command src :
  copy_source env = Some (command, src) →
  src ≠ extensions_txt ∧ src ≠ settings_jsonc.
Proof.
  intros H.
  assert (Hl : Text.last_char src = Some "n"%char).
  { unfold copy_source in H. destruct (is_linux env).
    - injection H as _ <-. simpl. by rewrite last_char_app.
    - destruct (truthy _); [|done]. destruct (APPDATA env); [|done].
      injection H as _ <-. unfold windows_settings. by rewrite last_char_app. }
  split; intros ->; done.
Qed.

Lemma backup_files_idem env sh f :
  backup_files env sh (backup_files env sh f) = backup_files env sh f.
Proof.
  unfold backup_files. destruct (can_spawn env); [|by rewrite insert_insert_eq].
  destruct (copy_source env) as [[command src]|] eqn:Hc;
    [|by rewrite insert_insert_eq].
  apply copy_source_ne in Hc as [Hne1 Hne2].
  cbv zeta. rewrite lookup_insert_ne by done.
  set (f1 := <[extensions_txt := listed env]> f).
  assert (Hf1 : ∀ c, <[extensions_txt := listed env]> (<[settings_jsonc := c]> f1)
                     = <[settings_jsonc := c]> f1).
  { intros c. unfold f1. rewrite insert_insert_ne by done.
    by rewrite insert_insert_eq. }
  assert (Hf1' : <[extensions_txt := listed env]> f1 = f1)
    by (unfold f1; by rewrite insert_insert_eq).
  assert (Hsrc : f1 !! src = f !! src)
    by (unfold f1; by rewrite lookup_insert_ne).
  rewrite Hsrc. destruct (f !! src) as [c|].
  - destruct (shell_copies sh command).
    + rewrite Hf1, lookup_insert_ne, Hsrc by done.
      by rewrite insert_insert_eq.
    + by rewrite Hf1', Hsrc.
  - by rewrite Hf1', Hsrc.
Qed.

(** C8.  A second [backup] right after a first, with the editor
    listing the same extensions and the live settings file untouched in
    between, leaves every file as the first run left it, in particular
    [vscode-extensions.txt] and [vscode-settings.jsonc]. *)
Theorem backup_idempotent env sh s :
  let once := (backup env sh s).2 in
  let twice := (backup env sh once).2 in
  files twice = files once ∧
  files twice !! extensions_txt = files once !! extensions_txt ∧
  files twice !! settings_jsonc = files once !! settings_jsonc.
Proof.
  intros once twice.
  assert (H : files twice = files once).
  { unfold twice, once. by rewrite !backup_files_spec, backup_files_idem. }
  by rewrite H.
Qed.

(** The sample run: the list file holds what the editor printed, the
    backup holds the live settings byte for byte. *)
Example backup_sample :
  let once := (backup Sample.linux Sample.posix_shell Sample.linux_state).2 in
  files once !! extensions_txt = Some (code_list_extensions Sample.linux) ∧
  files once !! settings_jsonc = Some "A".
Proof. vm_compute. done. Qed.

(** ** Restore *)

Lemma take_snapshot_unbound env s :
  take_snapshot env None s = (Raise (UnboundLocalError "p"), s).
Proof. done. Qed.

Lemma take_snapshot_missing env p s :
  files s !! expanduser env p = None →
  take_snapshot env (Some p) s =
  (Raise (FileNotFoundError (expanduser env p)),
   add_trace [EvOpenFailed (expanduser env p) ModeR] s).
Proof.
  intros H. unfold take_snapshot. rewrite bind_unfold. simpl.
  unfold with_file at 1, open_r. by rewrite H.
Qed.

Lemma take_snapshot_ok env p s A :
  files s !! expanduser env p = Some A →
  expanduser env p ≠ snapshot_name env →
  take_snapshot env (Some p) s =
  (Ok tt,
   add_trace (snapshot_events env (expanduser env p) A)
     (set_files (<[snapshot_name env := Text.universal_newlines A]> (files s)) s)).
Proof.
  intros H Hne. unfold take_snapshot. rewrite bind_unfold. simpl.
  unfold with_file at 1, open_r. rewrite H.
  unfold with_file. rewrite open_w_bare by apply dirname_snapshot.
  rewrite bind_unfold. unfold read, write. simpl.
  rewrite lookup_insert_ne, H, lookup_insert_eq, insert_insert_eq by done.
  simpl. unfold log, add_trace, set_files, snapshot_events. simpl.
  by rewrite <- !app_assoc.
Qed.

Lemma write_back_missing env po s :
  files s !! settings_jsonc = None →
  write_back env po s =
  (Raise (FileNotFoundError settings_jsonc),
   add_trace [EvOpenFailed settings_jsonc ModeR] s).
Proof. intros H. unfold write_back, with_file, open_r. by rewrite H. Qed.

Lemma write_back_blocked env p s B :
  files s !! settings_jsonc = Some B →
  files s !! p = None →
  can_create env s p = false →
  write_back env (Some p) s =
  (Raise (FileNotFoundError p),
   add_trace [EvOpen settings_jsonc ModeR; EvOpenFailed p ModeW;
              EvClose settings_jsonc] s).
Proof.
  intros HB Hp Hc. unfold write_back, with_file at 1, open_r. rewrite HB.
  rewrite bind_unfold. simpl. unfold with_file, open_w. simpl.
  rewrite Hp. unfold can_create in *. simpl. rewrite Hc. simpl.
  unfold log, add_trace. simpl. by rewrite <- !app_assoc.
Qed.

Lemma write_back_ok env p s B :
  files s !! settings_jsonc = Some B →
  p ≠ settings_jsonc →
  is_Some (files s !! p) ∨ can_create env s p = true →
  write_back env (Some p) s =
  (Ok tt,
   add_trace [EvOpen settings_jsonc ModeR; EvOpen p ModeW;
              EvWrite p (Text.universal_newlines B); EvClose p;
              EvClose settings_jsonc]
     (set_files (<[p := Text.universal_newlines B]> (files s)) s)).
Proof.
  intros HB Hne Hc. unfold write_back, with_file at 1, open_r. rewrite HB.
  rewrite bind_unfold. simpl. unfold with_file, open_w. simpl.
  assert (Hopen : bool_decide (is_Some (files s !! p))
                  || can_create env (log (EvOpen settings_jsonc ModeR) s) p = true).
  { destruct Hc as [Hc|Hc].
    - by rewrite bool_decide_eq_true_2.
    - unfold can_create in *. simpl. rewrite Hc. apply orb_true_r. }
  rewrite Hopen. unfold read, write. simpl.
  rewrite lookup_insert_ne, HB, lookup_insert_eq, insert_insert_eq by done.
  simpl. unfold log, add_trace, set_files. simpl. by rewrite <- !app_assoc.
Qed.

Lemma settings_path_state env s : (settings_path env s).2 = s.
Proof.
  unfold settings_path. destruct (is_linux env); [done|].
  destruct (truthy _); [|done]. by destruct (APPDATA env).
Qed.

Lemma settings_path_live env s p :
  settings_path env s = (Ok (Some p), s) →
  live_settings env = Some (expanduser env p).
Proof.
  unfold settings_path, live_settings. destruct (is_linux env).
  - by intros [= <-].
  - destruct (truthy _); [|done]. destruct (APPDATA env); [|done].
    by intros [= <-].
Qed.

Lemma settings_path_none env s e :
  settings_path env s = (Raise e, s) ∨ settings_path env s = (Ok None, s) →
  live_settings env = None.
Proof.
  unfold settings_path, live_settings. destruct (is_linux env).
  - by intros [|].
  - destruct (truthy _); [|done]. destruct (APPDATA env); [|done].
    by intros [|].
Qed.

Lemma last_char_ne a b c d :
  Text.last_char a = Some c → Text.last_char b = Some d → c ≠ d → a ≠ b.
Proof. intros Ha Hb Hne ->. congruence. Qed.

Lemma restore_runs env s : restore_run env s (restore env s).
Proof.
  unfold restore. rewrite bind_unfold.
  pose proof (settings_path_state env s) as Hst.
  destruct (settings_path env s) as [[[p|]|e] s0] eqn:Hp; simpl in Hst; subst s0.
  - destruct (last_char_settings_path env p s s Hp) as [Hlp Hle].
    pose proof (last_char_snapshot env) as Hls.
    assert (Hne1 : expanduser env p ≠ snapshot_name env)
      by (eapply last_char_ne; done).
    assert (Hne2 : p ≠ snapshot_name env) by (eapply last_char_ne; done).
    assert (Hne3 : p ≠ settings_jsonc) by (eapply last_char_ne; done).
    rewrite bind_unfold.
    destruct (files s !! expanduser env p) as [A|] eqn:HA.
    + rewrite (take_snapshot_ok env p s A) by done.
      set (s1 := add_trace _ _).
      assert (Hs1 : ∀ q, q ≠ snapshot_name env → files s1 !! q = files s !! q)
        by (intros q Hq; unfold s1; simpl; by rewrite lookup_insert_ne).
      destruct (files s !! settings_jsonc) as [B|] eqn:HB.
      * destruct (decide (is_Some (files s !! p) ∨ can_create env s p = true))
          as [Hc|Hc].
        -- rewrite (write_back_ok env p s1 B).
           ++ unfold s1.
              change (set_files ?g (add_trace ?T (set_files ?f s)))
                with (add_trace T (set_files g s)).
              rewrite add_trace_add_trace. by apply RunWritten.
           ++ rewrite Hs1; [done|]. apply not_eq_sym, snapshot_ne_backup.
           ++ done.
           ++ rewrite Hs1 by done. done.
        -- assert (files s !! p = None ∧ can_create env s p = false) as [H1 H2].
           { destruct (files s !! p) eqn:E; [destruct Hc; left; eauto|].
             split; [done|]. destruct (can_create env s p); [|done].
             destruct Hc. by right. }
           rewrite (write_back_blocked env p s1 B).
           ++ unfold s1. rewrite add_trace_add_trace. by apply (RunBlocked _ _ p A B).
           ++ rewrite Hs1; [done|]. apply not_eq_sym, snapshot_ne_backup.
           ++ by rewrite Hs1.
           ++ done.
      * rewrite (write_back_missing env (Some p) s1).
        -- unfold s1. rewrite add_trace_add_trace. by apply RunNoBackup.
        -- rewrite Hs1; [done|]. apply not_eq_sym, snapshot_ne_backup.
    + rewrite (take_snapshot_missing env p s) by done. by apply RunNoLive.
  - rewrite bind_unfold, take_snapshot_unbound. apply RunNoPath.
    apply (settings_path_none env s (TypeError EmptyString)). by right.
  - apply RunNoPath. apply (settings_path_none env s e). by left.
Qed.

Lemma replay_app f l k : replay (replay f l) k = replay f (l ++ k).
Proof. unfold replay. by rewrite foldl_app. Qed.

Lemma replay_untargeted f evs q :
  Forall (λ ev, target ev ≠ Some q) evs → replay f evs !! q = f !! q.
Proof.
  intros H. revert f. induction H as [|ev evs Hev _ IH]; intros f; [done|].
  change (replay f (ev :: evs)) with (replay (replay_event f ev) evs).
  rewrite IH. destruct ev as [p [|]| | p d | | |]; simpl in *; try done.
  - rewrite lookup_insert_ne; [done|]. by intros ->.
  - rewrite lookup_insert_ne; [done|]. by intros ->.
Qed.

Lemma replay_snapshot_events env f live A :
  live ≠ snapshot_name env →
  replay f (snapshot_events env live A)
  = <[snapshot_name env := Text.universal_newlines A]> f.
Proof.
  intros _. unfold replay, snapshot_events. simpl.
  by rewrite lookup_insert_eq, insert_insert_eq.
Qed.

Lemma snapshot_first_quiet env f T :
  Forall (λ ev, target ev = None) T → snapshot_first env f T.
Proof.
  intros H. split.
  - intros pre ev post q -> Ht _.
    apply Forall_app in H as [_ H]. apply Forall_cons in H as [H _]. congruence.
  - intros pre q [rest ->] _ Hq. destruct Hq.
    apply replay_untargeted. apply Forall_app in H as [H _].
    eapply Forall_impl; [exact H|]. simpl. intros ev ->. done.
Qed.

Lemma snapshot_first_then env f live A tail :
  live_settings env = Some live →
  f !! live = Some A →
  live ≠ snapshot_name env →
  Forall (λ ev, target ev ≠ Some (snapshot_name env)) tail →
  snapshot_first env f (snapshot_events env live A ++ tail).
Proof.
  intros Hlive HA Hne Htail.
  assert (Hdone : ∀ k rest, tail = k ++ rest →
            snapshot_done env f (snapshot_events env live A ++ k)).
  { intros k rest ->.
    assert (Hsnap : replay f (snapshot_events env live A ++ k)
                      !! snapshot_name env
                    = Some (Text.universal_newlines A)).
    { rewrite <- replay_app, replay_snapshot_events by done.
      rewrite replay_untargeted; [by rewrite lookup_insert_eq|].
      by apply Forall_app in Htail as [? _]. }
    exists live, A. split_and!; [done|done|by eexists|by eexists|done]. }
  assert (Hin : Forall (λ ev, ∀ q, target ev = Some q → q = snapshot_name env)
                  (snapshot_events env live A)).
  { unfold snapshot_events. repeat constructor; simpl; congruence. }
  split.
  - intros pre ev post q Heq Ht Hq. symmetry in Heq.
    apply app_eq_inv in Heq as [(k & -> & Hk)|(k & HS & Hk)].
    + by apply (Hdone k (ev :: post)).
    + destruct k as [|ev' k].
      * rewrite app_nil_r in HS. subst pre.
        rewrite <- (app_nil_r (snapshot_events _ _ _)). by apply (Hdone [] tail).
      * simpl in Hk. injection Hk as -> ->.
        rewrite HS in Hin.
        apply Forall_app in Hin as [_ Hin]. apply Forall_cons in Hin as [Hin _].
        destruct Hq. by apply Hin.
  - intros pre q [rest Heq] Hq Hch.
    apply app_eq_inv in Heq as [(k & HS & Hk)|(k & -> & Hk)].
    + destruct Hch. apply replay_untargeted.
      rewrite HS in Hin.
      apply Forall_app in Hin as [Hin _].
      eapply Forall_impl; [exact Hin|]. simpl. intros ev Hev Ht.
      apply Hq. by apply Hev.
    + by apply (Hdone k rest).
Qed.

(** C3, as the code has it.  In every run of [restore] the snapshot
    file is created, written with the text the live settings file held
    before, its line ends as text mode reads them, and closed before
    any other file, the live settings file included, is opened for
    writing or written; at no point of the run has a file other than
    the snapshot changed without the snapshot being complete and in
    place; and where the text is ASCII the complete snapshot holds it,
    with CR LF and CR turned into LF. *)
Theorem snapshot_before_overwrite env s :
  ∃ T,
    trace (restore env s).2 = trace s ++ T ∧
    files (restore env s).2 = replay (files s) T ∧
    snapshot_first env (files s) T.
Proof.
  pose proof (restore_runs env s) as Hrun.
  pose proof (last_char_snapshot env) as Hls.
  inversion Hrun as
    [e Hnone|p Hp HA|p A Hp HA HB|p A B Hp HA HB Hnp Hc|p A B Hp HA HB];
    try (destruct (last_char_settings_path env p s s Hp) as [Hlp Hle];
         assert (Hne : expanduser env p ≠ snapshot_name env)
           by (eapply last_char_ne; done);
         assert (Hne2 : p ≠ snapshot_name env) by (eapply last_char_ne; done);
         pose proof (settings_path_live env s p Hp) as Hlive).
  - exists []. split_and!.
    + simpl. by rewrite app_nil_r.
    + done.
    + by apply snapshot_first_quiet.
  - exists [EvOpenFailed (expanduser env p) ModeR]. split_and!.
    + done.
    + done.
    + apply snapshot_first_quiet. by repeat constructor.
  - exists (snapshot_events env (expanduser env p) A
            ++ [EvOpenFailed settings_jsonc ModeR]). split_and!.
    + done.
    + by rewrite <- replay_app, replay_snapshot_events.
    + apply snapshot_first_then; [done..|]. by repeat constructor.
  - exists (snapshot_events env (expanduser env p) A
            ++ [EvOpen settings_jsonc ModeR; EvOpenFailed p ModeW;
                EvClose settings_jsonc]). split_and!.
    + done.
    + by rewrite <- replay_app, replay_snapshot_events.
    + apply snapshot_first_then; [done..|].
      repeat constructor; simpl; congruence.
  - exists (snapshot_events env (expanduser env p) A
            ++ [EvOpen settings_jsonc ModeR; EvOpen p ModeW;
                EvWrite p (Text.universal_newlines B); EvClose p;
                EvClose settings_jsonc]). split_and!.
    + done.
    + rewrite <- replay_app, replay_snapshot_events by done.
      unfold replay. simpl. by rewrite lookup_insert_eq, insert_insert_eq.
    + apply snapshot_first_then; [done..|].
      repeat constructor; simpl; congruence.
Qed.

(** C3, as the claim has it, fails on the content of the snapshot.  On
    Windows a live settings file with CR LF line ends is opened for
    writing when the snapshot, written and closed, holds the text with
    LF line ends, not the content the live file had. *)
Lemma snapshot_content_counterexample :
  ¬ (∀ env s live A pre post,
       live_settings env = Some live →
       files s !! live = Some A →
       trace (restore env s).2 = trace s ++ pre ++ EvOpen live ModeW :: post →
       replay (files s) pre !! snapshot_name env = Some A) ∧
  (let s := Sample.windows_state_crlf in
   let A := String "{" (String Text.CR (String Text.LF "}")) in
   let pre := snapshot_events Sample.windows Sample.windows_live A
              ++ [EvOpen settings_jsonc ModeR] in
   let post := [EvWrite Sample.windows_live "B"; EvClose Sample.windows_live;
                EvClose settings_jsonc] in
   files s !! Sample.windows_live = Some A ∧
   Text.is_ascii A = true ∧
   trace (restore Sample.windows s).2
     = trace s ++ pre ++ EvOpen Sample.windows_live ModeW :: post ∧
   replay (files s) pre !! snapshot_name Sample.windows
     = Some (String "{" (String Text.LF "}"))).
Proof.
  assert (Hrun : let s := Sample.windows_state_crlf in
   let A := String "{" (String Text.CR (String Text.LF "}")) in
   let pre := snapshot_events Sample.windows Sample.windows_live A
              ++ [EvOpen settings_jsonc ModeR] in
   let post := [EvWrite Sample.windows_live "B"; EvClose Sample.windows_live;
                EvClose settings_jsonc] in
   files s !! Sample.windows_live = Some A ∧
   Text.is_ascii A = true ∧
   trace (restore Sample.windows s).2
     = trace s ++ pre ++ EvOpen Sample.windows_live ModeW :: post ∧
   replay (files s) pre !! snapshot_name Sample.windows
     = Some (String "{" (String Text.LF "}"))) by (by vm_compute).
  split; [|exact Hrun].
  intros H. destruct Hrun as (HA & _ & Htr & Hsnap).
  specialize (H Sample.windows Sample.windows_state_crlf Sample.windows_live
                _ _ _ eq_refl HA Htr).
  rewrite Hsnap in H. discriminate H.
Qed.

(** ** Restore without a backup, on Linux, on Windows *)

(** C10.  When [vscode-settings.jsonc] does not exist, [restore] ends
    in an exception without having opened any file but the snapshot
    for writing, and every file but the snapshot, the live settings
    file among them, is as it was; where the platform has a live
    settings file and it exists, the exception is the file-not-found
    of the backup, raised after the snapshot of the live file has been
    written and closed. *)
Theorem restore_without_backup env s :
  files s !! settings_jsonc = None →
  (∃ e, (restore env s).1 = Raise e) ∧
  (∀ q, q ≠ snapshot_name env → files (restore env s).2 !! q = files s !! q) ∧
  (∃ T, trace (restore env s).2 = trace s ++ T ∧
        ∀ q, q ≠ snapshot_name env →
             (EvOpen q ModeW ∉ T) ∧ (EvOpenFailed q ModeW ∉ T)) ∧
  (∀ live A,
     live_settings env = Some live → files s !! live = Some A →
     restore env s =
       (Raise (FileNotFoundError settings_jsonc),
        add_trace (snapshot_events env live A
                   ++ [EvOpenFailed settings_jsonc ModeR])
          (set_files
             (<[snapshot_name env := Text.universal_newlines A]> (files s)) s)) ∧
     files (restore env s).2 !! live = Some A ∧
     files (restore env s).2 !! snapshot_name env
       = Some (Text.universal_newlines A)).
Proof.
  intros Hno.
  pose proof (restore_runs env s) as Hrun.
  pose proof (last_char_snapshot env) as Hls.
  inversion Hrun as
    [e Hnone|p Hp HA|p A Hp HA HB|p A B Hp HA HB Hnp Hc|p A B Hp HA HB];
    try congruence;
    try (destruct (last_char_settings_path env p s s Hp) as [Hlp Hle];
         assert (Hne : expanduser env p ≠ snapshot_name env)
           by (eapply last_char_ne; done);
         pose proof (settings_path_live env s p Hp) as Hlive).
  - split_and!; simpl.
    + by eexists.
    + done.
    + exists []. split; [by rewrite app_nil_r|].
      intros q _. split; apply not_elem_of_nil.
    + intros live A Hl. congruence.
  - split_and!; simpl.
    + by eexists.
    + done.
    + eexists. split; [done|]. intros q _.
      split; intros Hin%list_elem_of_singleton; congruence.
    + intros live A Hl HA'. congruence.
  - split_and!; simpl.
    + by eexists.
    + intros q Hq. by rewrite lookup_insert_ne.
    + eexists. split; [done|]. intros q Hq. unfold snapshot_events.
      split; intros Hin; repeat (apply elem_of_cons in Hin as [Hin|Hin];
        [congruence|]); by apply elem_of_nil in Hin.
    + intros live A' Hl HA'.
      assert (live = expanduser env p) as -> by congruence.
      assert (A' = A) as -> by congruence.
      split_and!; [done| |].
      * by rewrite lookup_insert_ne.
      * by rewrite lookup_insert_eq.
Qed.

Lemma restore_without_backup_witness :
  files (initial (<[Sample.windows_live := "A"]> ∅) ∅) !! settings_jsonc = None ∧
  ∃ e, (restore Sample.windows (initial (<[Sample.windows_live := "A"]> ∅) ∅)).1
       = Raise e.
Proof.
  assert (H : files (initial (<[Sample.windows_live := "A"]> ∅) ∅)
              !! settings_jsonc = None) by reflexivity.
  split; [exact H|].
  exact (proj1 (restore_without_backup Sample.windows _ H)).
Defined.

Example restore_without_backup_sample :
  let s := initial (<[Sample.windows_live := "A"]> ∅) ∅ in
  (restore Sample.windows s).1 = Raise (FileNotFoundError settings_jsonc) ∧
  files (restore Sample.windows s).2 !! Sample.windows_live = Some "A" ∧
  files (restore Sample.windows s).2 !! "vscode-settings-1700000000.jsonc"
    = Some "A".
Proof. vm_compute. done. Qed.

(** Where the live settings file is read on Linux is not where [p] is
    written: [p] keeps its "~". *)
Lemma linux_live_ne_p env :
  HOME env ≠ "~" → expanduser env linux_settings ≠ linux_settings.
Proof.
  intros Hh. unfold linux_settings. simpl.
  change ("~/.config/Code/User/settings.json")
    with ("~" +:+ "/.config/Code/User/settings.json").
  intros H. by apply string_app_inv_tail in H.
Qed.

(** On Linux no run of [restore] changes the live settings file. *)
Theorem restore_linux_live_untouched env s :
  is_linux env = true →
  HOME env ≠ "~" →
  files (restore env s).2 !! expanduser env linux_settings
  = files s !! expanduser env linux_settings.
Proof.
  intros Hl Hh.
  pose proof (linux_live_ne_p env Hh) as Hne0.
  pose proof (restore_runs env s) as Hrun.
  pose proof (last_char_snapshot env) as Hls.
  assert (Hpath : ∀ p, settings_path env s = (Ok (Some p), s) → p = linux_settings).
  { unfold settings_path. rewrite Hl. by intros p [= <-]. }
  inversion Hrun as
    [e Hnone|p Hp HA|p A Hp HA HB|p A B Hp HA HB Hnp Hc|p A B Hp HA HB];
    try done;
    destruct (last_char_settings_path env p s s Hp) as [Hlp Hle];
    assert (Hne : expanduser env p ≠ snapshot_name env)
      by (eapply last_char_ne; done);
    rewrite (Hpath p Hp) in *; simpl files.
  - by rewrite lookup_insert_ne.
  - by rewrite lookup_insert_ne.
  - by rewrite !lookup_insert_ne.
Qed.

Lemma restore_linux_live_untouched_witness :
  is_linux Sample.linux = true ∧ HOME Sample.linux ≠ "~" ∧
  files (restore Sample.linux Sample.linux_state_tilde).2 !! Sample.linux_live
  = Some "A".
Proof.
  assert (H1 : is_linux Sample.linux = true) by reflexivity.
  assert (H2 : HOME Sample.linux ≠ "~") by (simpl; discriminate).
  split_and!; [exact H1 | exact H2 |].
  exact (restore_linux_live_untouched Sample.linux Sample.linux_state_tilde H1 H2).
Defined.

(** The slip on Linux, run.  In a
    working directory that has the directory [~/.config/Code/User],
    [restore] completes; the snapshot holds the live settings "A", but
    the backup "B" has gone to the file [~/.config/Code/User/settings.json]
    below the working directory, and the live settings file still
    holds "A". *)
Example restore_linux_writes_elsewhere :
  let r := restore Sample.linux Sample.linux_state_tilde in
  r.1 = Ok tt ∧
  files r.2 !! "vscode-settings-1700000000.jsonc" = Some "A" ∧
  files r.2 !! Sample.linux_live = Some "A" ∧
  files r.2 !! linux_settings = Some "B" ∧
  live_settings Sample.linux = Some Sample.linux_live.
Proof. vm_compute. done. Qed.

(** Without that directory, the usual case, [restore] on Linux takes
    the snapshot and then fails on [p]. *)
Example restore_linux_fails :
  let r := restore Sample.linux Sample.linux_state in
  r.1 = Raise (FileNotFoundError linux_settings) ∧
  files r.2 !! Sample.linux_live = Some "A".
Proof. vm_compute. done. Qed.

(** A path in normal form with a drive has nothing to expand. *)
Lemma drive_path_expanduser env appdata :
  drive_path appdata = true →
  expanduser env (windows_settings appdata) = windows_settings appdata.
Proof.
  intros H. destruct appdata as [|d rest]; [done|].
  unfold windows_settings.
  change (String d rest +:+ "\Code\User\settings.json")
    with (String d (rest +:+ "\Code\User\settings.json")).
  unfold expanduser.
  destruct (Ascii.eqb_spec d "~") as [->|]; [|done].
  destruct rest as [|c [|c' r]]; simpl in H; try done.
Qed.

(** Text mode keeps an ASCII text ASCII. *)
Lemma universal_newlines_ascii_step s :
  (Text.is_ascii s = true → Text.is_ascii (Text.universal_newlines s) = true) ∧
  (∀ c, Text.is_ascii (String c s) = true →
        Text.is_ascii (Text.universal_newlines (String c s)) = true).
Proof.
  induction s as [|d r [IH1 IH2]].
  - split; [done|]. intros c H. cbn [Text.universal_newlines].
    destruct (Ascii.eqb c Text.CR); [done|]. exact H.
  - split; [apply IH2|]. intros c H.
    cbn [Text.is_ascii] in H. apply andb_prop in H as [Hc H].
    pose proof (IH2 d H) as Hd.
    cbn [Text.is_ascii] in H. apply andb_prop in H as [_ Hr].
    change (Text.universal_newlines (String c (String d r)))
      with (if Ascii.eqb c Text.CR then
              if Ascii.eqb d Text.LF
              then String Text.LF (Text.universal_newlines r)
              else String Text.LF (Text.universal_newlines (String d r))
            else String c (Text.universal_newlines (String d r))).
    destruct (Ascii.eqb c Text.CR).
    + destruct (Ascii.eqb d Text.LF); cbn [Text.is_ascii].
      * by rewrite (IH1 Hr).
      * by rewrite Hd.
    + cbn [Text.is_ascii]. by rewrite Hc, Hd.
Qed.

Lemma universal_newlines_ascii s :
  Text.is_ascii s = true → Text.is_ascii (Text.universal_newlines s) = true.
Proof. apply universal_newlines_ascii_step. Qed.

(** C2, as the code has it by design.  On Windows, with [APPDATA] an
    absolute path in normal form, for every ASCII content [A] of the
    live settings file and every ASCII content [B] of
    [vscode-settings.jsonc], [restore] completes, the file
    [vscode-settings-<epoch>.jsonc] then holds [A] and the live settings
    file holds [B], each with its CR LF and CR line ends turned into LF,
    as text mode reads them, and each ASCII again.  The texts are ASCII
    because the two files are read with the locale's codec (lines 116
    and 122) and written as UTF-8 (lines 118 and 123): on ASCII the two
    codecs agree. *)
Theorem restore_windows env s appdata A B :
  is_linux env = false →
  truthy (IS_WINDOWS env) = true →
  APPDATA env = Some appdata →
  drive_path appdata = true →
  files s !! windows_settings appdata = Some A →
  files s !! settings_jsonc = Some B →
  Text.is_ascii A = true →
  Text.is_ascii B = true →
  (restore env s).1 = Ok tt ∧
  live_settings env = Some (windows_settings appdata) ∧
  files (restore env s).2 !! snapshot_name env = Some (Text.universal_newlines A) ∧
  files (restore env s).2 !! windows_settings appdata
    = Some (Text.universal_newlines B) ∧
  Text.is_ascii (Text.universal_newlines A) = true ∧
  Text.is_ascii (Text.universal_newlines B) = true.
Proof.
  intros Hl Hw Ha Hc HA HB HaA HaB.
  pose proof (drive_path_expanduser env appdata Hc) as Hexp.
  assert (Hpath : settings_path env s = (Ok (Some (windows_settings appdata)), s)).
  { unfold settings_path. by rewrite Hl, Hw, Ha. }
  pose proof (settings_path_live env s _ Hpath) as Hlive. rewrite Hexp in Hlive.
  pose proof (restore_runs env s) as Hrun.
  pose proof (last_char_snapshot env) as Hls.
  destruct (last_char_settings_path env _ s s Hpath) as [Hlp _].
  assert (Hne : windows_settings appdata ≠ snapshot_name env)
    by (eapply last_char_ne; done).
  inversion Hrun as
    [e Hnone|p Hp HA'|p A' Hp HA' HB'|p A' B' Hp HA' HB' Hnp Hcc|p A' B' Hp HA' HB'];
    try congruence;
    assert (p = windows_settings appdata) as -> by congruence;
    rewrite Hexp in *; try congruence.
  assert (A' = A) as -> by congruence. assert (B' = B) as -> by congruence.
  simpl. split_and!; [done|done| | |by apply universal_newlines_ascii..].
  - rewrite lookup_insert_ne by done. by rewrite lookup_insert_eq.
  - by rewrite lookup_insert_eq.
Qed.

Lemma restore_windows_witness :
  drive_path "C:\Users\u\AppData\Roaming" = true ∧
  Text.is_ascii "A" = true ∧ Text.is_ascii "B" = true ∧
  (restore Sample.windows Sample.windows_state).1 = Ok tt ∧
  files (restore Sample.windows Sample.windows_state).2 !! Sample.windows_live
    = Some (Text.universal_newlines "B").
Proof.
  split_and!; [reflexivity..| |].
  - exact (proj1
      (restore_windows Sample.windows Sample.windows_state
         "C:\Users\u\AppData\Roaming" "A" "B"
         eq_refl eq_refl eq_refl eq_refl eq_refl eq_refl eq_refl eq_refl)).
  - exact (proj1 (proj2 (proj2 (proj2
      (restore_windows Sample.windows Sample.windows_state
         "C:\Users\u\AppData\Roaming" "A" "B"
         eq_refl eq_refl eq_refl eq_refl eq_refl eq_refl eq_refl eq_refl))))).
Defined.

(** Line ends on the way: a live file with CR LF comes out of the
    snapshot step with LF. *)
Example restore_windows_crlf :
  files (restore Sample.windows Sample.windows_state_crlf).2
    !! "vscode-settings-1700000000.jsonc"
  = Some (String "{" (String Text.LF "}")).
Proof. vm_compute. done. Qed.

(** ** Unsupported platforms *)

Lemma unsupported_flags env :
  IS_WINDOWS env = None →
  is_linux env = false ∧ truthy (IS_WINDOWS env) = false.
Proof.
  intros H. rewrite H. split; [|done]. unfold IS_WINDOWS, is_linux in *.
  by destruct (String.prefix "linux" _).
Qed.

(** C9, as the code has it.  On a platform that is neither Linux nor
    Windows the settings path is never assigned.  [restore] stops at
    its first use of the path with an unbound-variable error, before it
    has opened any file; [diff] stops the same way once it has opened
    the backup, and with the file-not-found of the backup when that is
    missing.  Neither tries to open a settings file, and neither
    changes a file. *)
Theorem unsupported_platform_fails env s :
  IS_WINDOWS env = None →
  live_settings env = None ∧
  restore env s = (Raise (UnboundLocalError "p"), s) ∧
  diff env s =
    match files s !! settings_jsonc with
    | Some _ =>
        (Raise (UnboundLocalError "p"),
         add_trace [EvOpen settings_jsonc ModeR; EvClose settings_jsonc] s)
    | None =>
        (Raise (FileNotFoundError settings_jsonc),
         add_trace [EvOpenFailed settings_jsonc ModeR] s)
    end.
Proof.
  intros H. destruct (unsupported_flags env H) as [Hl Hw].
  assert (Hp : ∀ s0, settings_path env s0 = (Ok None, s0))
    by (intros s0; unfold settings_path; by rewrite Hl, Hw).
  split_and!.
  - unfold live_settings. by rewrite Hl, Hw.
  - unfold restore. by rewrite bind_unfold, Hp.
  - unfold diff, with_file, open_r.
    destruct (files s !! settings_jsonc); [|done].
    rewrite bind_unfold, Hp. simpl.
    unfold log, add_trace. simpl. by rewrite <- app_assoc.
Qed.

Lemma unsupported_platform_fails_witness :
  IS_WINDOWS Sample.darwin = None ∧
  restore Sample.darwin Sample.darwin_state
  = (Raise (UnboundLocalError "p"), Sample.darwin_state).
Proof.
  assert (H : IS_WINDOWS Sample.darwin = None) by reflexivity.
  split; [exact H|].
  exact (proj1 (proj2
    (unsupported_platform_fails Sample.darwin Sample.darwin_state H))).
Defined.

(** C9, as the claim has it, fails: on such a platform [restore] does
    not end in a failed open of a settings path, it ends before any
    open is tried; and [diff] without a backup ends at the backup. *)
Lemma unsupported_platform_not_a_failed_open :
  ¬ (∀ env s, IS_WINDOWS env = None →
       failed_opening_settings (diff env s) ∧
       failed_opening_settings (restore env s)).
Proof.
  intros H.
  destruct (H Sample.darwin Sample.darwin_state eq_refl)
    as [_ (path & _ & Hr & _)].
  vm_compute in Hr. discriminate Hr.
Qed.

Example unsupported_platform_samples :
  restore Sample.darwin Sample.darwin_state
    = (Raise (UnboundLocalError "p"), Sample.darwin_state) ∧
  (diff Sample.darwin Sample.darwin_state).1 = Raise (UnboundLocalError "p") ∧
  diff Sample.darwin Sample.empty_state
    = (Raise (FileNotFoundError settings_jsonc),
       add_trace [EvOpenFailed settings_jsonc ModeR] Sample.empty_state).
Proof. vm_compute. done. Qed.

(** C2, as the claim has it, fails in two ways.  On Windows a live
    settings file with CR LF line ends is restored without a fault, and
    the snapshot holds the text with LF line ends, not the content the
    live file had.  On Linux, where the run completes at all (the
    working directory has a directory [~/.config/Code/User]), the live
    settings file does not receive the backup. *)
Lemma restore_contents_counterexample :
  ¬ (∀ env s live A B,
       live_settings env = Some live →
       files s !! live = Some A →
       files s !! settings_jsonc = Some B →
       (restore env s).1 = Ok tt →
       files (restore env s).2 !! snapshot_name env = Some A ∧
       files (restore env s).2 !! live = Some B) ∧
  (let r := restore Sample.windows Sample.windows_state_crlf in
   r.1 = Ok tt ∧
   files Sample.windows_state_crlf !! Sample.windows_live
     = Some (String "{" (String Text.CR (String Text.LF "}"))) ∧
   files r.2 !! snapshot_name Sample.windows
     = Some (String "{" (String Text.LF "}"))) ∧
  (let r := restore Sample.linux Sample.linux_state_tilde in
   r.1 = Ok tt ∧
   files Sample.linux_state_tilde !! settings_jsonc = Some "B" ∧
   files r.2 !! Sample.linux_live = Some "A").
Proof.
  split_and!; [|by vm_compute|by vm_compute].
  intros H.
  destruct (H Sample.windows Sample.windows_state_crlf Sample.windows_live
              (String "{" (String Text.CR (String Text.LF "}"))) "B")
    as [Hs _]; [reflexivity..|].
  vm_compute in Hs. discriminate Hs.
Qed.

(** ** The matcher on two equal sequences *)

Lemma elem_of_positions i x b j :
  j ∈ positions i x b ↔ i ≤ j ∧ b !! (j - i) = Some x.
Proof.
  revert i. induction b as [|y b IH]; intros i; simpl.
  - rewrite elem_of_nil. split; [done|]. by intros [_ ?].
  - rewrite elem_of_app, IH. case_decide as Hxy.
    + subst y. rewrite list_elem_of_singleton. split.
      * intros [->|[Hle Hl]].
        -- split; [lia|]. by rewrite Nat.sub_diag.
        -- split; [lia|]. by replace (j - i) with (S (j - S i)) by lia.
      * intros [Hle Hl]. destruct (decide (j = i)) as [|Hne]; [by left|].
        right. split; [lia|].
        by replace (j - i) with (S (j - S i)) in Hl by lia.
    + rewrite elem_of_nil. split.
      * intros [[]|[Hle Hl]]. split; [lia|].
        by replace (j - i) with (S (j - S i)) by lia.
      * intros [Hle Hl]. right.
        destruct (decide (j = i)) as [->|Hne].
        { rewrite Nat.sub_diag in Hl. simpl in Hl. congruence. }
        split; [lia|]. by replace (j - i) with (S (j - S i)) in Hl by lia.
Qed.

Lemma positions_sorted i x b : StronglySorted lt (positions i x b).
Proof.
  revert i. induction b as [|y b IH]; intros i; simpl; [constructor|].
  case_decide; simpl; [|apply IH].
  constructor; [apply IH|].
  apply Forall_forall. intros j [Hj _]%elem_of_positions. lia.
Qed.

Lemma index_b_lookup i b m x :
  Difflib.index_b i b m !! x =
  match positions i x b with
  | [] => m !! x
  | ps => Some (default [] (m !! x) ++ ps)
  end.
Proof.
  revert i m. induction b as [|y b IH]; intros i m; simpl; [done|].
  rewrite IH. case_decide as Hxy.
  - subst y. rewrite lookup_insert_eq. simpl.
    destruct (positions (S i) x b); simpl; [done|].
    by rewrite <- app_assoc.
  - rewrite lookup_insert_ne by done. done.
Qed.

Lemma chain_b_lookup b x js :
  Difflib.chain_b b !! x = Some js → js = positions 0 x b.
Proof.
  unfold Difflib.chain_b.
  assert (H : Difflib.index_b 0 b ∅ !! x = Some js → js = positions 0 x b).
  { rewrite index_b_lookup, lookup_empty. simpl.
    destruct (positions 0 x b); [done|]. by intros [= <-]. }
  destruct (200 <=? length b); [|done].
  intros [Hl _]%map_lookup_filter_Some. by apply H.
Qed.

Section SameSequence.
Context (a : list string) (b2j : gmap string (list nat)) (lo hi : nat).
Context (Hb2j : ∀ x js, b2j !! x = Some js → js = positions 0 x a).
Context (Hlo : lo ≤ hi) (Hhi : hi ≤ length a).

Local Abbreviation run := (np_run a b2j lo).

Lemma run_0 e : lo ≤ e → run e 0.
Proof. intros H. split; [lia|]. intros t ??. lia. Qed.

Lemma run_S e k x :
  a !! e = Some x → is_Some (b2j !! x) → run e k → run (S e) (S k).
Proof.
  intros Hx Hv [Hle Hrun]. split; [lia|]. intros t H1 H2.
  destruct (decide (t = e)) as [->|]; [eauto|]. apply Hrun; lia.
Qed.

Lemma run_S_inv e k : run (S e) (S k) → run e k.
Proof.
  intros [Hle Hrun]. split; [lia|]. intros t H1 H2. apply Hrun; lia.
Qed.

Lemma run_hidden e k x :
  a !! e = Some x → b2j !! x = None → run (S e) k → k = 0.
Proof.
  intros Hx Hn [Hle Hrun]. destruct k as [|k]; [done|].
  destruct (Hrun e) as (y & Hy & Hv); [lia..|].
  assert (y = x) as -> by congruence. rewrite Hn in Hv. by destruct Hv.
Qed.

(** The value [find_longest_match] computes at row [i], column [j]. *)
Lemma cell_run i j x j2len :
  row_inv a b2j lo i j2len →
  lo ≤ i → lo ≤ j →
  a !! i = Some x → a !! j = Some x → is_Some (b2j !! x) →
  let k := Difflib.j2lenget j2len j + 1 in
  run (S i) k ∧ run (S j) k.
Proof.
  intros [HS _] Hi Hj Hai Haj Hv k. unfold k, Difflib.j2lenget.
  destruct j as [|j'].
  { simpl. split; eapply run_S; eauto using run_0. }
  destruct (j2len !! j') as [k0|] eqn:E; simpl.
  - destruct (HS j' k0 E) as (_ & H1 & H2).
    rewrite Nat.add_1_r. split; eapply run_S; eauto.
  - split; eapply run_S; eauto using run_0.
Qed.

(** One row.  [seen] says whether the column [i] of the diagonal is
    behind. *)
Lemma scan_row_inv i x j2len (seen : bool) js newj2len best :
  row_inv a b2j lo i j2len →
  lo ≤ i → i < hi →
  a !! i = Some x → is_Some (b2j !! x) →
  StronglySorted lt js →
  Forall (λ j, a !! j = Some x) js →
  (if seen then Forall (λ j, i < j) js else i ∈ js) →
  (∀ j k, newj2len !! j = Some k → 1 ≤ k ∧ run (S i) k ∧ run (S j) k) →
  best_inv a b2j lo hi i best →
  (seen = true →
     (∀ k, run (S i) k → k ≤ best.2) ∧
     (∀ k, 1 ≤ k → run (S i) k → ∃ kd, newj2len !! i = Some kd ∧ k ≤ kd)) →
  let r := Difflib.scan_row j2len i lo hi js newj2len best in
  row_inv a b2j lo (S i) r.1 ∧ best_inv a b2j lo hi (S i) r.2.
Proof.
  intros Hrow Hi Hih Hai Hv Hsort Hall.
  revert seen newj2len best.
  induction js as [|j js IH]; intros seen newj2len best Hseen HW1 Hbest HW2.
  - simpl. destruct seen; [|by apply elem_of_nil in Hseen].
    destruct (HW2 eq_refl) as [Hmax Hdiag].
    destruct Hbest as (Hal & Hb1 & Hb2 & Hb3).
    split.
    + split; [done|]. intros i' k [= <-]. by apply Hdiag.
    + split_and!; try done. intros e k He Hr.
      destruct (decide (e = S i)) as [->|]; [by apply Hmax|].
      apply (Hb3 e); [lia|done].
  - apply StronglySorted_cons in Hsort as [Hgt Hsort].
    apply Forall_cons in Hall as [Haj Hall].
    simpl. destruct (j <? lo) eqn:Ejlo.
    { apply Nat.ltb_lt in Ejlo. apply (IH Hsort Hall seen); try done.
      destruct seen.
      - by apply Forall_cons in Hseen as [_ ?].
      - apply elem_of_cons in Hseen as [->|]; [lia|done]. }
    apply Nat.ltb_ge in Ejlo.
    destruct (hi <=? j) eqn:Ejhi.
    { apply Nat.leb_le in Ejhi. simpl.
      destruct seen.
      - destruct (HW2 eq_refl) as [Hmax Hdiag].
        destruct Hbest as (Hal & Hb1 & Hb2 & Hb3).
        split.
        + split; [done|]. intros i' k [= <-]. by apply Hdiag.
        + split_and!; try done. intros e k He Hr.
          destruct (decide (e = S i)) as [->|]; [by apply Hmax|].
          apply (Hb3 e); [lia|done].
      - apply elem_of_cons in Hseen as [->|Hin]; [lia|].
        rewrite Forall_forall in Hgt. specialize (Hgt i Hin). lia. }
    apply Nat.leb_gt in Ejhi.
    destruct (cell_run i j x j2len Hrow Hi Ejlo Hai Haj Hv) as [Hri Hrj].
    set (k := Difflib.j2lenget j2len j + 1) in *.
    assert (Hk1 : 1 ≤ k) by (unfold k; lia).
    assert (HW1' : ∀ j0 k0, <[j:=k]> newj2len !! j0 = Some k0 →
                     1 ≤ k0 ∧ run (S i) k0 ∧ run (S j0) k0).
    { intros j0 k0. destruct (decide (j = j0)) as [<-|Hne].
      - rewrite lookup_insert_eq. by intros [= <-].
      - rewrite lookup_insert_ne by done. apply HW1. }
    destruct Hbest as (Hal & Hb1 & Hb2 & Hb3).
    destruct (Nat.lt_trichotomy j i) as [Hlt|[->|Hgtji]].
    + (* left of the diagonal: the diagonal of row [j] was at least as good *)
      assert (Hle : k ≤ best.2) by (apply (Hb3 (S j)); [lia|done]).
      apply Nat.ltb_ge in Hle. rewrite Hle.
      assert (seen = false) as ->.
      { destruct seen; [|done].
        apply Forall_cons in Hseen as [? _]. lia. }
      apply (IH Hsort Hall false); try done.
      apply elem_of_cons in Hseen as [->|]; [lia|done].
    + (* on the diagonal *)
      assert (Hmaxk : ∀ k', run (S i) k' → k' ≤ k).
      { intros [|k'] Hr; [lia|]. apply run_S_inv in Hr.
        destruct k' as [|k'']; [lia|].
        destruct i as [|i']; [destruct Hr; lia|].
        destruct Hrow as [_ HC].
        destruct (HC i' (S k'') eq_refl) as (kd & Hkd & Hle); [lia|done|].
        unfold k, Difflib.j2lenget. rewrite Hkd. simpl. lia. }
      assert (Hrest : Forall (λ j, i < j) js) by done.
      destruct (best.2 <? k) eqn:Eupd.
      * apply Nat.ltb_lt in Eupd.
        apply (IH Hsort Hall true); try done.
        -- destruct Hri as [Hri _]. split_and!; simpl; try lia.
           intros e k0 He Hr. specialize (Hb3 e k0 He Hr). lia.
        -- intros _. split.
           ++ intros k' Hr. simpl. by apply Hmaxk.
           ++ intros k' _ Hr. exists k. rewrite lookup_insert_eq.
              split; [done|]. by apply Hmaxk.
      * apply Nat.ltb_ge in Eupd.
        apply (IH Hsort Hall true); try done.
        intros _. split.
        -- intros k' Hr. specialize (Hmaxk k' Hr). lia.
        -- intros k' _ Hr. exists k. rewrite lookup_insert_eq.
           split; [done|]. by apply Hmaxk.
    + (* right of the diagonal: the diagonal of this row was at least as good *)
      assert (seen = true) as ->.
      { destruct seen; [done|].
        apply elem_of_cons in Hseen as [->|Hin]; [lia|].
        rewrite Forall_forall in Hgt. specialize (Hgt i Hin). lia. }
      destruct (HW2 eq_refl) as [Hmax Hdiag].
      assert (Hle : k ≤ best.2) by by apply Hmax.
      apply Nat.ltb_ge in Hle. rewrite Hle.
      apply (IH Hsort Hall true); try done.
      -- apply Forall_forall. intros j' Hj'.
         rewrite Forall_forall in Hgt. specialize (Hgt j' Hj'). lia.
      -- intros _. split; [done|].
         intros k' Hk' Hr. rewrite lookup_insert_ne by lia. by apply Hdiag.
Qed.

Lemma scan_rows_inv n i j2len best :
  n = hi - i → lo ≤ i → i ≤ hi →
  row_inv a b2j lo i j2len →
  best_inv a b2j lo hi i best →
  best_inv a b2j lo hi hi (Difflib.scan_rows a b2j lo hi (seq i n) j2len best).
Proof.
  revert i j2len best.
  induction n as [|n IH]; intros i j2len best Hn Hi Hih Hrow Hbest.
  - assert (i = hi) as -> by lia. done.
  - assert (Hlt : i < hi) by lia.
    destruct (lookup_lt_is_Some_2 a i) as [x Hx]; [lia|].
    simpl. rewrite Hx.
    destruct (b2j !! x) as [js|] eqn:Hjs; simpl.
    + pose proof (Hb2j x js Hjs) as ->.
      assert (Hv : is_Some (b2j !! x)) by (rewrite Hjs; eauto).
      assert (Hall : Forall (λ j, a !! j = Some x) (positions 0 x a)).
      { apply Forall_forall. intros j [_ Hj]%elem_of_positions.
        by rewrite Nat.sub_0_r in Hj. }
      assert (Hin : i ∈ positions 0 x a).
      { apply elem_of_positions. split; [lia|]. by rewrite Nat.sub_0_r. }
      assert (HW1 : ∀ j k, (∅ : gmap nat nat) !! j = Some k →
                1 ≤ k ∧ run (S i) k ∧ run (S j) k) by done.
      assert (HW2 : false = true →
                (∀ k, run (S i) k → k ≤ best.2) ∧
                (∀ k, 1 ≤ k → run (S i) k →
                   ∃ kd, (∅ : gmap nat nat) !! i = Some kd ∧ k ≤ kd)) by done.
      pose proof (scan_row_inv i x j2len false (positions 0 x a) ∅ best
                    Hrow Hi Hlt Hx Hv (positions_sorted 0 x a) Hall Hin
                    HW1 Hbest HW2) as Hstep.
      destruct (Difflib.scan_row j2len i lo hi (positions 0 x a) ∅ best)
        as [newj2len best'].
      destruct Hstep as [Hrow' Hbest'].
      apply IH; [lia..|done|done].
    + apply IH; [lia..| |].
      * split; [done|]. intros i' k [= <-] Hk Hr.
        apply (run_hidden _ _ _ Hx Hjs) in Hr. lia.
      * destruct Hbest as (Hal & Hb1 & Hb2 & Hb3).
        split_and!; try done. intros e k He Hr.
        destruct (decide (e = S i)) as [->|]; [|apply (Hb3 e); [lia|done]].
        apply (run_hidden _ _ _ Hx Hjs) in Hr. lia.
Qed.

Lemma scan_rows_same :
  best_inv a b2j lo hi hi
    (Difflib.scan_rows a b2j lo hi (seq lo (hi - lo)) ∅ (lo, lo, 0)).
Proof.
  apply scan_rows_inv; [done|lia|lia| |].
  - split; [done|]. intros i' k -> Hk [Hr _]. lia.
  - split_and!; simpl; [done|lia|lia|].
    intros e k He [Hr _]. lia.
Qed.

End SameSequence.

Lemma isbjunk_false x : Difflib.isbjunk x = false.
Proof. by destruct x. Qed.

Lemma grow_down_same a lo besti bestsize :
  lo ≤ besti →
  Difflib.grow_down a a false lo lo besti besti bestsize
  = (lo, lo, bestsize + (besti - lo)).
Proof.
  revert bestsize. induction besti as [|i IH]; intros bestsize Hlo.
  - assert (lo = 0) as -> by lia. simpl. by rewrite Nat.add_0_r.
  - simpl. rewrite Nat.sub_0_r, isbjunk_false.
    rewrite !bool_decide_eq_true_2 by done. rewrite !andb_true_r.
    destruct (lo <? S i) eqn:E.
    + apply Nat.ltb_lt in E. simpl. rewrite IH by lia. f_equal. lia.
    + apply Nat.ltb_ge in E. assert (lo = S i) as -> by lia.
      simpl. by rewrite Nat.sub_diag, Nat.add_0_r.
Qed.

Lemma grow_up_same a hi room besti bestsize :
  room = hi - (besti + bestsize) →
  besti + bestsize ≤ hi →
  Difflib.grow_up a a false hi hi room besti besti bestsize
  = (besti, besti, hi - besti).
Proof.
  revert bestsize. induction room as [|room IH]; intros bestsize Hroom Hle.
  - simpl. f_equal. lia.
  - simpl. rewrite isbjunk_false.
    rewrite !bool_decide_eq_true_2 by done. rewrite !andb_true_r.
    assert (E : (besti + bestsize <? hi) = true) by (apply Nat.ltb_lt; lia).
    rewrite E. simpl. apply IH; lia.
Qed.

Lemma grow_down_junk a b alo blo besti bestj bestsize :
  Difflib.grow_down a b true alo blo besti bestj bestsize
  = (besti, bestj, bestsize).
Proof.
  destruct besti as [|i]; [done|]. simpl. rewrite isbjunk_false.
  rewrite (bool_decide_eq_false_2 (false = true)) by done.
  by rewrite andb_false_r.
Qed.

Lemma grow_up_junk a b ahi bhi room besti bestj bestsize :
  Difflib.grow_up a b true ahi bhi room besti bestj bestsize
  = (besti, bestj, bestsize).
Proof.
  destruct room as [|room]; [done|]. simpl. rewrite isbjunk_false.
  rewrite (bool_decide_eq_false_2 (false = true)) by done.
  by rewrite andb_false_r.
Qed.

(** On a sequence and itself the longest match of a range is the whole
    range. *)
Lemma find_longest_match_same a lo hi :
  lo ≤ hi → hi ≤ length a →
  Difflib.find_longest_match a a (Difflib.chain_b a) lo hi lo hi
  = (lo, lo, hi - lo).
Proof.
  intros Hlo Hhi. unfold Difflib.find_longest_match.
  pose proof (scan_rows_same a (Difflib.chain_b a) lo hi
                (chain_b_lookup a) Hlo Hhi) as Hbest.
  destruct (Difflib.scan_rows _ _ _ _ _ _ _) as [[bi bj] bk].
  destruct Hbest as (Hal & Hb1 & Hb2 & _). simpl in *. subst bj.
  rewrite grow_down_same by done.
  rewrite (grow_up_same a hi) by lia.
  rewrite grow_down_junk, grow_up_junk. done.
Qed.

Lemma match_loop_done fuel a b b2j blocks :
  Difflib.match_loop fuel a b b2j [] blocks = blocks.
Proof. by destruct fuel. Qed.

Lemma collapse_single k :
  Difflib.collapse (0, 0, 0) (Difflib.sort_blocks [(0, 0, k)])
  = if 0 <? k then [(0, 0, k)] else [].
Proof. done. Qed.

Lemma get_matching_blocks_same a :
  Difflib.get_matching_blocks a a =
  (if 0 <? length a then [(0, 0, length a)] else [])
  ++ [(length a, length a, 0)].
Proof.
  unfold Difflib.get_matching_blocks. cbv zeta.
  replace (2 * length a + 1) with (S (2 * length a)) by lia.
  cbn [Difflib.match_loop].
  rewrite find_longest_match_same by lia. rewrite Nat.sub_0_r.
  destruct (0 <? length a) eqn:E.
  - rewrite !Nat.add_0_l, !Nat.ltb_irrefl. cbn [andb app].
    by rewrite match_loop_done, collapse_single, E.
  - by rewrite match_loop_done.
Qed.

Lemma get_opcodes_same a :
  Difflib.get_opcodes a a =
  if 0 <? length a then [(Difflib.Equal, 0, length a, 0, length a)] else [].
Proof.
  unfold Difflib.get_opcodes. rewrite get_matching_blocks_same.
  destruct (0 <? length a) eqn:E; simpl.
  - rewrite E. simpl. by rewrite !Nat.ltb_irrefl.
  - apply Nat.ltb_ge in E. assert (length a = 0) as -> by lia. done.
Qed.

(** A single run of equal lines forms no group. *)
Lemma group_single_equal n i1 i2 j1 j2 :
  Difflib.group_loop n
    (Difflib.trim_last n (Difflib.trim_first n [(Difflib.Equal, i1, i2, j1, j2)])) []
  = [].
Proof.
  simpl.
  assert (E : (n + n <? i2 `min` (i1 `max` (i2 - n) + n) - i1 `max` (i2 - n))
              = false) by (apply Nat.ltb_ge; lia).
  by rewrite E.
Qed.

Lemma get_grouped_opcodes_same a n : Difflib.get_grouped_opcodes a a n = [].
Proof.
  unfold Difflib.get_grouped_opcodes. rewrite get_opcodes_same.
  destruct (0 <? length a); apply group_single_equal.
Qed.

(** Two equal line lists give an empty diff. *)
Lemma unified_diff_same a fromfile tofile n lineterm :
  Difflib.unified_diff a a fromfile tofile n lineterm = [].
Proof. unfold Difflib.unified_diff. by rewrite get_grouped_opcodes_same. Qed.

(** ** The fuel of the matching loop *)

Lemma scan_row_bound j2len i alo blo bhi js newj2len best :
  alo ≤ i →
  map_Forall (λ _ k, alo + k ≤ i) j2len →
  map_Forall (λ _ k, alo + k ≤ S i) newj2len →
  alo ≤ best.1.1 → best.1.1 + best.2 ≤ S i →
  let r := Difflib.scan_row j2len i blo bhi js newj2len best in
  map_Forall (λ _ k, alo + k ≤ S i) r.1 ∧
  alo ≤ r.2.1.1 ∧ r.2.1.1 + r.2.2 ≤ S i.
Proof.
  intros Hi Hprev. revert newj2len best.
  induction js as [|j js IH]; intros newj2len best Hnew Hb1 Hb2; simpl; [done|].
  destruct (j <? blo); [by apply IH|].
  destruct (bhi <=? j); [done|].
  assert (Hk : alo + (Difflib.j2lenget j2len j + 1) ≤ S i).
  { unfold Difflib.j2lenget. destruct j as [|j']; [simpl; lia|].
    destruct (j2len !! j') as [k0|] eqn:E; simpl; [|lia].
    specialize (Hprev j' k0 E). simpl in Hprev. lia. }
  apply IH.
  - by apply map_Forall_insert_2.
  - destruct (best.2 <? _); simpl; [lia|done].
  - destruct (best.2 <? _); simpl; [lia|done].
Qed.

Lemma scan_rows_bound a b2j alo ahi blo bhi n i j2len best :
  n = ahi - i → alo ≤ i → i ≤ ahi →
  map_Forall (λ _ k, alo + k ≤ i) j2len →
  alo ≤ best.1.1 → best.1.1 + best.2 ≤ i →
  let r := Difflib.scan_rows a b2j blo bhi (seq i n) j2len best in
  alo ≤ r.1.1 ∧ r.1.1 + r.2 ≤ ahi.
Proof.
  revert i j2len best.
  induction n as [|n IH]; intros i j2len best Hn Hi Hih Hprev Hb1 Hb2; simpl.
  - split; [done|lia].
  - set (js := match a !! i with
               | Some x => default [] (b2j !! x)
               | None => []
               end).
    pose proof (scan_row_bound j2len i alo blo bhi js ∅ best Hi Hprev
                  (map_Forall_empty _) Hb1) as Hrow.
    destruct (Difflib.scan_row j2len i blo bhi js ∅ best) as [newj2len best'].
    destruct Hrow as (H1 & H2 & H3); [lia|]. simpl in *.
    apply IH; [lia..|done|done|done].
Qed.

Lemma grow_down_bound a b junk alo blo besti bestj bestsize :
  alo ≤ besti →
  let r := Difflib.grow_down a b junk alo blo besti bestj bestsize in
  alo ≤ r.1.1 ∧ r.1.1 + r.2 = besti + bestsize.
Proof.
  revert bestj bestsize. induction besti as [|i IH]; intros bestj bestsize Hlo.
  - done.
  - simpl. destruct (alo <? S i) eqn:E; [|done].
    apply Nat.ltb_lt in E.
    destruct (_ && _ && _ && _); [|done]. simpl.
    destruct (IH (bestj - 1) (bestsize + 1)) as [H1 H2]; [lia|].
    split; [done|]. lia.
Qed.

Lemma grow_up_bound a b junk ahi bhi room besti bestj bestsize :
  besti + bestsize ≤ ahi →
  let r := Difflib.grow_up a b junk ahi bhi room besti bestj bestsize in
  r.1.1 = besti ∧ bestsize ≤ r.2 ∧ r.1.1 + r.2 ≤ ahi.
Proof.
  revert bestsize. induction room as [|room IH]; intros bestsize Hle.
  - done.
  - simpl. destruct (besti + bestsize <? ahi) eqn:E; [|done].
    apply Nat.ltb_lt in E.
    destruct (_ && _ && _ && _); [|done].
    destruct (IH (bestsize + 1)) as (H1 & H2 & H3); [lia|].
    split_and!; [done|lia|done].
Qed.

(** The match [find_longest_match] returns lies within the rows it was
    given, whatever the sequences. *)
Lemma find_longest_match_bound a b b2j alo ahi blo bhi :
  alo ≤ ahi →
  let r := Difflib.find_longest_match a b b2j alo ahi blo bhi in
  alo ≤ r.1.1 ∧ r.1.1 + r.2 ≤ ahi.
Proof.
  intros Hle. unfold Difflib.find_longest_match.
  pose proof (scan_rows_bound a b2j alo ahi blo bhi (ahi - alo) alo ∅
                (alo, blo, 0) eq_refl (Nat.le_refl _) Hle
                (map_Forall_empty _)) as H0.
  destruct (Difflib.scan_rows _ _ _ _ _ _ _) as [[i0 j0] k0].
  destruct H0 as [H01 H02]; [done|simpl; lia|]. simpl in *.
  pose proof (grow_down_bound a b false alo blo i0 j0 k0 H01) as H1.
  destruct (Difflib.grow_down a b false _ _ _ _ _) as [[i1 j1] k1].
  destruct H1 as [H11 H12]. simpl in *.
  pose proof (grow_up_bound a b false ahi bhi (ahi - (i1 + k1)) i1 j1 k1) as H2.
  destruct (Difflib.grow_up a b false _ _ _ _ _ _) as [[i2 j2] k2].
  destruct H2 as (H21 & H22 & H23); [lia|]. simpl in *. subst i2.
  pose proof (grow_down_bound a b true alo blo i1 j2 k2 H11) as H3.
  destruct (Difflib.grow_down a b true _ _ _ _ _) as [[i3 j3] k3].
  destruct H3 as [H31 H32]. simpl in *.
  pose proof (grow_up_bound a b true ahi bhi (ahi - (i3 + k3)) i3 j3 k3) as H4.
  destruct (Difflib.grow_up a b true _ _ _ _ _ _) as [[i4 j4] k4].
  destruct H4 as (H41 & H42 & H43); [lia|]. simpl in *. split; lia.
Qed.

(** More rounds than the measure of the queue change nothing: the loop
    has emptied the queue before the fuel is used up. *)
Lemma match_loop_fuel a b b2j fuel extra queue blocks :
  Forall range_ok queue →
  queue_measure queue ≤ fuel →
  Difflib.match_loop (fuel + extra) a b b2j queue blocks
  = Difflib.match_loop fuel a b b2j queue blocks.
Proof.
  revert queue blocks.
  induction fuel as [|fuel IH]; intros queue blocks Hok Hm.
  - destruct queue as [|r queue]; [by rewrite !match_loop_done|].
    unfold queue_measure in Hm. simpl in Hm. lia.
  - destruct queue as [|[[[alo ahi] blo] bhi] queue];
      [by rewrite !match_loop_done|].
    apply Forall_cons in Hok as [Hr Hok]. unfold range_ok in Hr. simpl in Hr.
    assert (Hm' : 2 * (ahi - alo) + 1 + queue_measure queue ≤ S fuel)
      by exact Hm.
    clear Hm.
    change (S fuel + extra) with (S (fuel + extra)).
    cbn [Difflib.match_loop].
    pose proof (find_longest_match_bound a b b2j alo ahi blo bhi Hr) as Hb.
    destruct (Difflib.find_longest_match a b b2j alo ahi blo bhi)
      as [[i j] k].
    destruct Hb as [Hb1 Hb2]. simpl in Hb1, Hb2.
    destruct (0 <? k) eqn:Ek.
    + apply Nat.ltb_lt in Ek. apply IH.
      * apply Forall_app. split.
        { destruct (_ && _) eqn:E; [|done]. repeat constructor.
          unfold range_ok. simpl.
          apply andb_prop in E as [E _]. apply Nat.ltb_lt in E. lia. }
        apply Forall_app. split; [|done].
        destruct (_ && _) eqn:E; [|done]. repeat constructor.
        unfold range_ok. simpl.
        apply andb_prop in E as [E _]. apply Nat.ltb_lt in E. lia.
      * unfold queue_measure. rewrite !sum_list_with_app.
        fold (queue_measure queue).
        destruct ((i + k <? ahi) && (j + k <? bhi));
          destruct ((alo <? i) && (blo <? j)); simpl; lia.
    + apply IH; [done|]. lia.
Qed.

(** [get_matching_blocks] gives its loop all the rounds it needs. *)
Lemma get_matching_blocks_fuel a b extra :
  Difflib.match_loop (2 * length a + 1 + extra) a b (Difflib.chain_b b)
    [(0, length a, 0, length b)] []
  = Difflib.match_loop (2 * length a + 1) a b (Difflib.chain_b b)
      [(0, length a, 0, length b)] [].
Proof.
  apply match_loop_fuel.
  - repeat constructor. unfold range_ok. simpl. lia.
  - unfold queue_measure. simpl. lia.
Qed.

(** ** The settings diff *)

Lemma live_settings_path env s live :
  live_settings env = Some live →
  ∃ p, settings_path env s = (Ok (Some p), s) ∧ expanduser env p = live.
Proof.
  unfold live_settings, settings_path. destruct (is_linux env).
  - intros [= <-]. by eexists.
  - destruct (truthy _); [|done]. destruct (APPDATA env); [|done].
    intros [= <-]. by eexists.
Qed.

Lemma diff_run env s live before after :
  live_settings env = Some live →
  files s !! settings_jsonc = Some before →
  files s !! live = Some after →
  diff env s =
  (Ok tt,
   add_trace [EvOpen settings_jsonc ModeR; EvOpen live ModeR; EvClose live;
              EvClose settings_jsonc]
     (add_out
        (Difflib.unified_diff
           (Text.readlines (Text.universal_newlines before))
           (Text.readlines (Text.universal_newlines after))
           "before.json" "after.json" 3 nl) s)).
Proof.
  intros Hlive Hb Ha.
  destruct (live_settings_path env (log (EvOpen settings_jsonc ModeR) s) live Hlive)
    as (p & Hp & Hexp).
  unfold diff, with_file at 1, open_r. rewrite Hb.
  rewrite bind_unfold, Hp. cbv beta iota.
  rewrite bind_unfold. simpl local. cbv beta iota. unfold mret, M_ret.
  rewrite Hexp. unfold with_file, open_r. simpl files. rewrite Ha.
  rewrite bind_unfold, readlines_eq. cbv beta iota.
  rewrite bind_unfold, readlines_eq. cbv beta iota.
  rewrite writelines_out. simpl files. rewrite Hb, Ha. simpl default.
  unfold log, add_trace, add_out. simpl. by rewrite <- !app_assoc.
Qed.

(** C7, as the code has it.  [diff] prints the unified diff, with three
    lines of context, of the lines of the backup against the lines of
    the live settings file; the from-file is labelled "before.json" and
    the to-file "after.json", and these two header lines open whatever
    is printed; when the two files have the same lines nothing is
    printed at all. *)
Theorem diff_prints_unified_diff env s live before after :
  live_settings env = Some live →
  files s !! settings_jsonc = Some before →
  files s !! live = Some after →
  let a := Text.readlines (Text.universal_newlines before) in
  let b := Text.readlines (Text.universal_newlines after) in
  let out := Difflib.unified_diff a b "before.json" "after.json" 3 nl in
  (diff env s).1 = Ok tt ∧
  stdout (diff env s).2 = stdout s ++ out ∧
  files (diff env s).2 = files s ∧
  (out = [] ∨
   ∃ hunks, out = ("--- before.json" +:+ nl) :: ("+++ after.json" +:+ nl) :: hunks) ∧
  (a = b → stdout (diff env s).2 = stdout s).
Proof.
  intros Hlive Hb Ha a b out.
  rewrite (diff_run env s live before after) by done. simpl.
  fold a b out. split_and!; try done.
  - unfold out, Difflib.unified_diff.
    destruct (Difflib.get_grouped_opcodes a b 3); [by left|right].
    by eexists.
  - intros Heq. unfold out. rewrite Heq, unified_diff_same.
    by rewrite app_nil_r.
Qed.

Lemma diff_prints_unified_diff_witness :
  live_settings Sample.linux = Some Sample.linux_live ∧
  files Sample.linux_state !! settings_jsonc = Some "B" ∧
  files Sample.linux_state !! Sample.linux_live = Some "A" ∧
  (diff Sample.linux Sample.linux_state).1 = Ok tt.
Proof.
  assert (H1 : live_settings Sample.linux = Some Sample.linux_live) by reflexivity.
  assert (H2 : files Sample.linux_state !! settings_jsonc = Some "B") by reflexivity.
  assert (H3 : files Sample.linux_state !! Sample.linux_live = Some "A")
    by reflexivity.
  split_and!; [exact H1 | exact H2 | exact H3 |].
  exact (proj1
    (diff_prints_unified_diff Sample.linux Sample.linux_state
       Sample.linux_live "B" "A" H1 H2 H3)).
Defined.

(** C7, as the claim has it, fails on the labels: the header lines name
    the files "before.json" and "after.json", not "before" and
    "after". *)
Lemma diff_labels_counterexample :
  ¬ (∀ env s,
       stdout s = [] → stdout (diff env s).2 ≠ [] →
       stdout (diff env s).2 !! 0 = Some ("--- before" +:+ nl) ∧
       stdout (diff env s).2 !! 1 = Some ("+++ after" +:+ nl)) ∧
  stdout (diff Sample.linux Sample.linux_state).2 =
    ["--- before.json" +:+ nl; "+++ after.json" +:+ nl; "@@ -1 +1 @@" +:+ nl;
     "-B"; "+A"].
Proof.
  assert (Hout : stdout (diff Sample.linux Sample.linux_state).2 =
    ["--- before.json" +:+ nl; "+++ after.json" +:+ nl; "@@ -1 +1 @@" +:+ nl;
     "-B"; "+A"]) by (vm_compute; reflexivity).
  split; [|exact Hout].
  intros H.
  destruct (H Sample.linux Sample.linux_state eq_refl) as [H0 _].
  - rewrite Hout. discriminate.
  - rewrite Hout in H0. vm_compute in H0. discriminate H0.
Qed.

(** After [backup] the diff is silent: the backup is a byte copy of
    the live file. *)
Example backup_then_diff :
  let s1 := (backup Sample.linux Sample.posix_shell Sample.linux_state).2 in
  stdout (diff Sample.linux s1).2 = [].
Proof. vm_compute. reflexivity. Qed.

(** * Further properties *)

(** ** The reconciler when something is missing *)



(** Without the recorded file each of the three operations stops at
    its first line. *)
Theorem reconciler_without_list env s :
  files s !! extensions_txt = None →
  let failed :=
    (Raise (FileNotFoundError extensions_txt),
     add_trace [EvOpenFailed extensions_txt ModeR] s) in
  comp env s = failed ∧ install env s = failed ∧ uninstall env s = failed.
Proof.
  intros H. unfold comp, install, uninstall, with_file, open_r.
  by rewrite H.
Qed.

Lemma reconciler_without_list_witness :
  files Sample.empty_state !! extensions_txt = None ∧
  install Sample.linux Sample.empty_state =
    (Raise (FileNotFoundError extensions_txt),
     add_trace [EvOpenFailed extensions_txt ModeR] Sample.empty_state).
Proof.
  assert (H : files Sample.empty_state !! extensions_txt = None) by reflexivity.
  split; [exact H|].
  exact (proj1 (proj2 (reconciler_without_list Sample.linux Sample.empty_state H))).
Defined.

(** Without a shell and without [code] the listing cannot be started:
    each of the three operations closes the recorded file and ends in
    the exception, with nothing printed and nothing started. *)
Theorem reconciler_without_code env s content :
  files s !! extensions_txt = Some content →
  can_spawn env = false →
  comp env s = quiet_failure s ∧
  install env s = quiet_failure s ∧
  uninstall env s = quiet_failure s.
Proof.
  intros Hf Hs. unfold quiet_failure.
  unfold comp, install, uninstall, with_file, open_r. rewrite Hf.
  rewrite !bind_unfold, readlines_eq. cbv beta iota.
  rewrite bind_unfold. unfold popen_readlines. rewrite Hs.
  unfold log, add_trace. simpl. by rewrite <- !app_assoc.
Qed.

Lemma reconciler_without_code_witness :
  files Sample.linux_state !! extensions_txt = Some Sample.recorded ∧
  can_spawn Cases.linux_without_code = false ∧
  comp Cases.linux_without_code Sample.linux_state
    = quiet_failure Sample.linux_state.
Proof.
  assert (H1 : files Sample.linux_state !! extensions_txt = Some Sample.recorded)
    by reflexivity.
  assert (H2 : can_spawn Cases.linux_without_code = false) by reflexivity.
  split_and!; [exact H1 | exact H2 |].
  exact (proj1 (reconciler_without_code Cases.linux_without_code
                  Sample.linux_state Sample.recorded H1 H2)).
Defined.

(** ** Operations that only read *)







(** What [install] leaves on the disk is the editor's doing. *)
Example install_leaves_the_disk_to_the_editor :
  let s := Sample.linux_state in
  let q := "/home/u/.vscode/extensions/rust-lang.rust-analyzer" in
  files s !! q = None ∧
  files (install Cases.linux_installing s).2 !! q = Some "installed" ∧
  files (install Sample.linux s).2 = files s.
Proof. vm_compute. done. Qed.

(** ** The report and the two apply operations *)

(** [comp] is the dry run of [install] and [uninstall], each run in
    an interpreter of its own: the identifiers it lists under "* FILE"
    are the ones [install] installs, those under "* CODE" the ones
    [uninstall] uninstalls, each once and in an order that may differ
    from the listed one; and it prints nothing exactly when neither has
    anything to do. *)
Theorem comp_reports_what_apply_does env s content order1 order2 :
  set_order_ok env →
  set_order_ok (with_order env order1) →
  set_order_ok (with_order env order2) →
  files s !! extensions_txt = Some content →
  can_spawn env = true →
  ∃ missing extra installed removed,
    stdout (comp env s).2 =
      stdout s ++ section_chunks code_title extra
               ++ section_chunks file_title missing ∧
    trace (install (with_order env order1) s).2 =
      trace s ++ [EvOpen extensions_txt ModeR; spawned env list_argv]
        ++ map (λ x, spawned env (install_argv x)) installed
        ++ [EvClose extensions_txt] ∧
    trace (uninstall (with_order env order2) s).2 =
      trace s ++ [EvOpen extensions_txt ModeR; spawned env list_argv]
        ++ map (λ x, spawned env (uninstall_argv x)) removed
        ++ [EvClose extensions_txt] ∧
    installed ≡ₚ missing ∧ removed ≡ₚ extra ∧
    (stdout (comp env s).2 = stdout s ↔ installed = [] ∧ removed = []).
Proof.
  intros Hord Hord1 Hord2 Hf Hs.
  exists (set_order env (difference (recorded_ids content) (live_ids env))),
         (set_order env (difference (live_ids env) (recorded_ids content))),
         (order1 (difference (recorded_ids content) (live_ids env))),
         (order2 (difference (live_ids env) (recorded_ids content))).
  rewrite (comp_run env s content) by done.
  rewrite (install_run (with_order env order1) s content) by done.
  rewrite (uninstall_run (with_order env order2) s content) by done.
  pose proof (Hord (difference (recorded_ids content) (live_ids env))) as Hm.
  pose proof (Hord (difference (live_ids env) (recorded_ids content))) as He.
  pose proof (Hord1 (difference (recorded_ids content) (live_ids env))) as Hm1.
  pose proof (Hord2 (difference (live_ids env) (recorded_ids content))) as He2.
  cbn [set_order with_order] in Hm1, He2.
  assert (Hpm : order1 (difference (recorded_ids content) (live_ids env))
                ≡ₚ set_order env (difference (recorded_ids content) (live_ids env)))
    by (by rewrite Hm1, Hm).
  assert (Hpe : order2 (difference (live_ids env) (recorded_ids content))
                ≡ₚ set_order env (difference (live_ids env) (recorded_ids content)))
    by (by rewrite He2, He).
  split_and!; try done.
  simpl. split.
  - intros H. apply (f_equal length) in H.
    rewrite !length_app in H.
    split; apply Permutation_nil_r.
    + rewrite Hpm.
      destruct (set_order env (difference (recorded_ids content) (live_ids env)));
        [done|].
      destruct (set_order env (difference (live_ids env) (recorded_ids content)));
        simpl in H; lia.
    + rewrite Hpe.
      destruct (set_order env (difference (live_ids env) (recorded_ids content)));
        [done|].
      simpl in H. lia.
  - intros [H1 H2]. rewrite H1 in Hpm. rewrite H2 in Hpe.
    apply Permutation_nil_l in Hpm, Hpe. rewrite <- Hpm, <- Hpe.
    simpl. by rewrite app_nil_r.
Qed.

Lemma comp_reports_what_apply_does_witness :
  set_order_ok Sample.linux ∧
  set_order_ok (with_order Sample.linux Cases.backwards) ∧
  files Sample.linux_state !! extensions_txt = Some Sample.recorded ∧
  can_spawn Sample.linux = true ∧
  ∃ missing installed,
    installed ≡ₚ missing ∧
    trace (install (with_order Sample.linux Cases.backwards)
             Sample.linux_state).2 =
      trace Sample.linux_state
        ++ [EvOpen extensions_txt ModeR; spawned Sample.linux list_argv]
        ++ map (λ x, spawned Sample.linux (install_argv x)) installed
        ++ [EvClose extensions_txt].
Proof.
  assert (H1 : set_order_ok Sample.linux) by (intros X; reflexivity).
  assert (H1' : set_order_ok (with_order Sample.linux Cases.backwards))
    by (intros X; apply reverse_Permutation).
  assert (H2 : files Sample.linux_state !! extensions_txt = Some Sample.recorded)
    by reflexivity.
  assert (H3 : can_spawn Sample.linux = true) by reflexivity.
  split_and!; [exact H1 | exact H1' | exact H2 | exact H3 |].
  destruct (comp_reports_what_apply_does Sample.linux Sample.linux_state
              Sample.recorded _ _ H1 H1' H1' H2 H3)
    as (missing & extra & installed & removed & _ & Hi & _ & Hp & _ & _).
  exists missing, installed. split; [exact Hp | exact Hi].
Defined.

(** The listed order and the applied order, in two runs. *)
Example applied_in_another_order :
  stdout (comp Sample.linux Cases.empty_list_state).2 =
    [code_title +:+ nl; dashes +:+ nl;
     "golang.go" +:+ nl; "ms-python.python" +:+ nl] ∧
  trace (uninstall (with_order Sample.linux Cases.backwards)
           Cases.empty_list_state).2 =
    [EvOpen extensions_txt ModeR; spawned Sample.linux list_argv;
     spawned Sample.linux (uninstall_argv "ms-python.python");
     spawned Sample.linux (uninstall_argv "golang.go");
     EvClose extensions_txt].
Proof. vm_compute. done. Qed.

(** ** An empty side *)

Lemma difference_nil_l ys : difference [] ys = ∅.
Proof.
  unfold difference. apply leibniz_equiv. intros x.
  rewrite elem_of_difference. simpl. split; [by intros [? _]|].
  intros Hx. by apply not_elem_of_empty in Hx.
Qed.

(** With an empty recorded file [uninstall] uninstalls every extension
    the editor lists, each once, [install] starts nothing, and [comp]
    puts every listed extension under "* CODE". *)
Theorem empty_recorded_list env s :
  set_order_ok env →
  files s !! extensions_txt = Some EmptyString →
  can_spawn env = true →
  ∃ everything,
    NoDup everything ∧ (∀ x, x ∈ everything ↔ x ∈ live_ids env) ∧
    trace (uninstall env s).2 =
      trace s ++ [EvOpen extensions_txt ModeR; spawned env list_argv]
        ++ map (λ x, spawned env (uninstall_argv x)) everything
        ++ [EvClose extensions_txt] ∧
    trace (install env s).2 =
      trace s ++ [EvOpen extensions_txt ModeR; spawned env list_argv;
                  EvClose extensions_txt] ∧
    stdout (comp env s).2 = stdout s ++ section_chunks code_title everything.
Proof.
  intros Hord Hf Hs.
  exists (set_order env (difference (live_ids env) [])).
  rewrite (comp_run env s EmptyString), (install_run env s EmptyString),
    (uninstall_run env s EmptyString) by done.
  change (recorded_ids EmptyString) with (@nil string).
  rewrite difference_nil_l.
  assert (E : set_order env ∅ = []) by by apply set_order_nil.
  rewrite E. simpl. split_and!; try done.
  - by apply set_order_NoDup.
  - intros x. rewrite set_order_difference by done.
    split; [by intros [? _]|]. intros Hx. split; [done|]. apply not_elem_of_nil.
  - by rewrite app_nil_r.
Qed.

Lemma empty_recorded_list_witness :
  set_order_ok Sample.linux ∧
  files Cases.empty_list_state !! extensions_txt
    = Some EmptyString ∧
  can_spawn Sample.linux = true ∧
  ∃ everything,
    (∀ x, x ∈ everything ↔ x ∈ live_ids Sample.linux) ∧
    trace (uninstall Sample.linux
             Cases.empty_list_state).2 =
      [EvOpen extensions_txt ModeR; spawned Sample.linux list_argv]
        ++ map (λ x, spawned Sample.linux (uninstall_argv x)) everything
        ++ [EvClose extensions_txt].
Proof.
  assert (H1 : set_order_ok Sample.linux) by (intros X; reflexivity).
  assert (H2 : files Cases.empty_list_state
               !! extensions_txt = Some EmptyString) by reflexivity.
  assert (H3 : can_spawn Sample.linux = true) by reflexivity.
  split_and!; [exact H1 | exact H2 | exact H3 |].
  destruct (empty_recorded_list Sample.linux _ H1 H2 H3)
    as (everything & _ & Hall & Hu & _).
  exists everything. split; [exact Hall | exact Hu].
Defined.

(** When the editor lists nothing, which through the Windows shell
    includes a [code] that is not installed, [install] installs every
    recorded identifier, each once, and [uninstall] starts nothing. *)
Theorem nothing_listed env s content :
  set_order_ok env →
  files s !! extensions_txt = Some content →
  can_spawn env = true →
  listed env = EmptyString →
  ∃ everything,
    NoDup everything ∧ (∀ x, x ∈ everything ↔ x ∈ recorded_ids content) ∧
    trace (install env s).2 =
      trace s ++ [EvOpen extensions_txt ModeR; spawned env list_argv]
        ++ map (λ x, spawned env (install_argv x)) everything
        ++ [EvClose extensions_txt] ∧
    trace (uninstall env s).2 =
      trace s ++ [EvOpen extensions_txt ModeR; spawned env list_argv;
                  EvClose extensions_txt].
Proof.
  intros Hord Hf Hs Hl.
  exists (set_order env (difference (recorded_ids content) [])).
  rewrite (install_run env s content), (uninstall_run env s content) by done.
  assert (El : live_ids env = []) by (unfold live_ids; by rewrite Hl).
  rewrite El, difference_nil_l.
  assert (E : set_order env ∅ = []) by by apply set_order_nil.
  rewrite E. simpl. split_and!; try done.
  - by apply set_order_NoDup.
  - intros x. rewrite set_order_difference by done.
    split; [by intros [? _]|]. intros Hx. split; [done|]. apply not_elem_of_nil.
Qed.

Lemma nothing_listed_witness :
  set_order_ok Cases.windows_without_code ∧
  files Sample.windows_state !! extensions_txt = Some Sample.recorded ∧
  can_spawn Cases.windows_without_code = true ∧
  listed Cases.windows_without_code = EmptyString ∧
  trace (uninstall Cases.windows_without_code Sample.windows_state).2 =
    trace Sample.windows_state
      ++ [EvOpen extensions_txt ModeR;
          spawned Cases.windows_without_code list_argv;
          EvClose extensions_txt].
Proof.
  assert (H1 : set_order_ok Cases.windows_without_code)
    by (intros X; reflexivity).
  assert (H2 : files Sample.windows_state !! extensions_txt = Some Sample.recorded)
    by reflexivity.
  assert (H3 : can_spawn Cases.windows_without_code = true) by reflexivity.
  assert (H4 : listed Cases.windows_without_code = EmptyString) by reflexivity.
  split_and!; [exact H1 | exact H2 | exact H3 | exact H4 |].
  destruct (nothing_listed Cases.windows_without_code Sample.windows_state
              Sample.recorded H1 H2 H3 H4) as (everything & _ & _ & _ & Hu).
  exact Hu.
Defined.

(** ** What a capture leaves *)

Lemma capture_list_ok env s :
  can_spawn env = true →
  with_file (open_w env) extensions_txt
    (run_to_file env list_argv extensions_txt) s
  = (Ok tt,
     add_trace [EvOpen extensions_txt ModeW; spawned env list_argv;
                EvClose extensions_txt]
       (set_files (<[extensions_txt := listed env]> (files s)) s)).
Proof.
  intros Hs. unfold with_file.
  rewrite open_w_bare by apply dirname_extensions_txt.
  unfold run_to_file. rewrite Hs. simpl.
  rewrite lookup_insert_eq, insert_insert_eq. simpl.
  unfold log, add_trace, set_files, spawned. simpl. by rewrite <- !app_assoc.
Qed.

Lemma capture_list_failed env s :
  can_spawn env = false →
  with_file (open_w env) extensions_txt
    (run_to_file env list_argv extensions_txt) s
  = (Raise (FileNotFoundError "code"),
     add_trace [EvOpen extensions_txt ModeW; EvClose extensions_txt]
       (set_files (<[extensions_txt := EmptyString]> (files s)) s)).
Proof.
  intros Hs. unfold with_file.
  rewrite open_w_bare by apply dirname_extensions_txt.
  unfold run_to_file. rewrite Hs. simpl.
  unfold log, add_trace, set_files. simpl. by rewrite <- !app_assoc.
Qed.

(** The copy step of [backup] as one command. *)
Lemma backup_copy_step env sh s :
  (if is_linux env then
     shell_copy sh
       "cp ~/.config/Code/User/settings.json ./vscode-settings.jsonc"
       (expanduser env linux_settings) settings_jsonc
   else if truthy (IS_WINDOWS env) then
     match APPDATA env with
     | Some appdata =>
         let p := windows_settings appdata in
         shell_copy sh ("copy " +:+ p +:+ " .\vscode-settings.jsonc") p
           settings_jsonc
     | None => raise (TypeError "NoneType")
     end
   else mret tt) s
  = match copy_source env with
    | Some (command, src) => shell_copy sh command src settings_jsonc s
    | None =>
        if truthy (IS_WINDOWS env) then (Raise (TypeError "NoneType"), s)
        else (Ok tt, s)
    end.
Proof.
  unfold copy_source. destruct (is_linux env) eqn:El; [done|].
  destruct (truthy (IS_WINDOWS env)); [|done].
  by destruct (APPDATA env).
Qed.

Lemma is_linux_not_windows env :
  is_linux env = true → truthy (IS_WINDOWS env) = false.
Proof. unfold is_linux, IS_WINDOWS. by intros ->. Qed.

(** A capture that goes through: the list file holds what the editor
    printed, byte for byte, [vscode-settings.jsonc] holds the live
    settings byte for byte, and no other file has changed. *)
Theorem backup_captures env sh s command src c :
  can_spawn env = true →
  copy_source env = Some (command, src) →
  files s !! src = Some c →
  shell_copies sh command = true →
  backup env sh s =
    (Ok tt,
     add_trace [EvOpen extensions_txt ModeW; spawned env list_argv;
                EvClose extensions_txt; EvShell command]
       (set_files
          (<[settings_jsonc := c]> (<[extensions_txt := listed env]> (files s)))
          s)) ∧
  files (backup env sh s).2 !! extensions_txt = Some (listed env) ∧
  files (backup env sh s).2 !! settings_jsonc = Some c ∧
  files (backup env sh s).2 !! src = Some c ∧
  (∀ q, q ≠ extensions_txt → q ≠ settings_jsonc →
        files (backup env sh s).2 !! q = files s !! q).
Proof.
  intros Hs Hc Hsrc Hsh.
  destruct (copy_source_ne env command src Hc) as [Hne1 Hne2].
  assert (Hrun : backup env sh s =
    (Ok tt,
     add_trace [EvOpen extensions_txt ModeW; spawned env list_argv;
                EvClose extensions_txt; EvShell command]
       (set_files
          (<[settings_jsonc := c]> (<[extensions_txt := listed env]> (files s)))
          s))).
  { unfold backup. rewrite bind_unfold, capture_list_ok by done.
    cbv beta iota. rewrite backup_copy_step, Hc.
    unfold shell_copy. simpl files.
    rewrite lookup_insert_ne, Hsrc, Hsh by done.
    unfold log, add_trace, set_files. simpl. by rewrite <- !app_assoc. }
  rewrite Hrun. simpl. split_and!; [done| | | |].
  - rewrite lookup_insert_ne by done. by rewrite lookup_insert_eq.
  - by rewrite lookup_insert_eq.
  - by rewrite !lookup_insert_ne.
  - intros q H1 H2. by rewrite !lookup_insert_ne.
Qed.

Lemma backup_captures_witness :
  can_spawn Sample.linux = true ∧
  copy_source Sample.linux =
    Some ("cp ~/.config/Code/User/settings.json ./vscode-settings.jsonc",
          Sample.linux_live) ∧
  files Sample.linux_state !! Sample.linux_live = Some "A" ∧
  shell_copies Sample.posix_shell
    "cp ~/.config/Code/User/settings.json ./vscode-settings.jsonc" = true ∧
  files (backup Sample.linux Sample.posix_shell Sample.linux_state).2
    !! settings_jsonc = Some "A".
Proof.
  assert (H1 : can_spawn Sample.linux = true) by reflexivity.
  assert (H2 : copy_source Sample.linux =
    Some ("cp ~/.config/Code/User/settings.json ./vscode-settings.jsonc",
          Sample.linux_live)) by reflexivity.
  assert (H3 : files Sample.linux_state !! Sample.linux_live = Some "A")
    by reflexivity.
  assert (H4 : shell_copies Sample.posix_shell
    "cp ~/.config/Code/User/settings.json ./vscode-settings.jsonc" = true)
    by reflexivity.
  split_and!; [exact H1 | exact H2 | exact H3 | exact H4 |].
  exact (proj1 (proj2 (proj2
    (backup_captures Sample.linux Sample.posix_shell Sample.linux_state
       _ _ _ H1 H2 H3 H4)))).
Defined.

(** A capture whose listing cannot be started: the list file is left
    empty, whatever it held, the exception ends the run, and the
    settings are not copied. *)
Theorem backup_without_code env sh s :
  can_spawn env = false →
  backup env sh s =
    (Raise (FileNotFoundError "code"),
     add_trace [EvOpen extensions_txt ModeW; EvClose extensions_txt]
       (set_files (<[extensions_txt := EmptyString]> (files s)) s)) ∧
  files (backup env sh s).2 !! extensions_txt = Some EmptyString ∧
  files (backup env sh s).2 !! settings_jsonc = files s !! settings_jsonc.
Proof.
  intros Hs.
  assert (Hrun : backup env sh s =
    (Raise (FileNotFoundError "code"),
     add_trace [EvOpen extensions_txt ModeW; EvClose extensions_txt]
       (set_files (<[extensions_txt := EmptyString]> (files s)) s))).
  { unfold backup. by rewrite bind_unfold, capture_list_failed. }
  rewrite Hrun. simpl. split_and!; [done| |].
  - by rewrite lookup_insert_eq.
  - by rewrite lookup_insert_ne.
Qed.

Lemma backup_without_code_witness :
  can_spawn Cases.linux_without_code = false ∧
  files Sample.linux_state !! extensions_txt = Some Sample.recorded ∧
  files (backup Cases.linux_without_code Sample.posix_shell
           Sample.linux_state).2 !! extensions_txt = Some EmptyString.
Proof.
  assert (H : can_spawn Cases.linux_without_code = false) by reflexivity.
  split_and!; [exact H | reflexivity |].
  exact (proj1 (proj2
    (backup_without_code Cases.linux_without_code Sample.posix_shell
       Sample.linux_state H))).
Defined.

(** A capture whose copy does not happen (no platform path, no live
    settings file, or a command line the shell does not take for the
    copy): the list file is written and nothing else changes.  Only a
    Windows without [APPDATA] shows it, by a type error; in every
    other case [backup] returns as if all was well. *)
Theorem backup_without_copy env sh s :
  can_spawn env = true →
  match copy_source env with
  | Some (command, src) =>
      files s !! src = None ∨ shell_copies sh command = false
  | None => True
  end →
  files (backup env sh s).2 = <[extensions_txt := listed env]> (files s) ∧
  (backup env sh s).1 =
    match copy_source env with
    | Some _ => Ok tt
    | None =>
        if truthy (IS_WINDOWS env) then Raise (TypeError "NoneType") else Ok tt
    end.
Proof.
  intros Hs Hc.
  unfold backup. rewrite bind_unfold, capture_list_ok by done.
  cbv beta iota. rewrite backup_copy_step.
  destruct (copy_source env) as [[command src]|] eqn:Hsrc.
  - destruct (copy_source_ne env command src Hsrc) as [Hne1 Hne2].
    unfold shell_copy. simpl files. rewrite lookup_insert_ne by done.
    destruct Hc as [Hc|Hc].
    + by rewrite Hc.
    + rewrite Hc. by destruct (files s !! src).
  - by destruct (truthy (IS_WINDOWS env)).
Qed.

Lemma backup_without_copy_witness :
  can_spawn Cases.windows_without_appdata = true ∧
  (backup Cases.windows_without_appdata Sample.posix_shell
     Sample.windows_state).1 = Raise (TypeError "NoneType") ∧
  (backup Sample.darwin Sample.posix_shell Sample.darwin_state).1 = Ok tt.
Proof.
  assert (H : can_spawn Cases.windows_without_appdata = true) by reflexivity.
  split_and!; [exact H | |].
  - exact (proj2 (backup_without_copy Cases.windows_without_appdata
                    Sample.posix_shell Sample.windows_state H I)).
  - exact (proj2 (backup_without_copy Sample.darwin Sample.posix_shell
                    Sample.darwin_state eq_refl I)).
Defined.

(** ** The synchronizer when something is missing *)

(** Without the live settings file [restore] stops at once and creates
    nothing, no snapshot either; [diff] stops there too once it has the
    backup open.  Both end in the file-not-found of the live path. *)
Theorem missing_live_settings env s live :
  live_settings env = Some live →
  files s !! live = None →
  restore env s =
    (Raise (FileNotFoundError live), add_trace [EvOpenFailed live ModeR] s) ∧
  (∀ before, files s !! settings_jsonc = Some before →
     diff env s =
       (Raise (FileNotFoundError live),
        add_trace [EvOpen settings_jsonc ModeR; EvOpenFailed live ModeR;
                   EvClose settings_jsonc] s)).
Proof.
  intros Hlive Hno. split.
  - destruct (live_settings_path env s live Hlive) as (p & Hp & Hexp).
    unfold restore. rewrite bind_unfold, Hp. cbv beta iota.
    rewrite bind_unfold, take_snapshot_missing by by rewrite Hexp.
    by rewrite Hexp.
  - intros before Hb.
    destruct (live_settings_path env (log (EvOpen settings_jsonc ModeR) s)
                live Hlive) as (p & Hp & Hexp).
    unfold diff, with_file at 1, open_r. rewrite Hb.
    rewrite bind_unfold, Hp. cbv beta iota.
    rewrite bind_unfold. simpl local. unfold mret at 1, M_ret at 1.
    cbv beta iota. rewrite Hexp. unfold with_file, open_r. simpl files.
    rewrite Hno. unfold log, add_trace. simpl. by rewrite <- !app_assoc.
Qed.

Lemma missing_live_settings_witness :
  live_settings Sample.linux = Some Sample.linux_live ∧
  files Sample.darwin_state !! Sample.linux_live = None ∧
  restore Sample.linux Sample.darwin_state =
    (Raise (FileNotFoundError Sample.linux_live),
     add_trace [EvOpenFailed Sample.linux_live ModeR] Sample.darwin_state).
Proof.
  assert (H1 : live_settings Sample.linux = Some Sample.linux_live) by reflexivity.
  assert (H2 : files Sample.darwin_state !! Sample.linux_live = None)
    by reflexivity.
  split_and!; [exact H1 | exact H2 |].
  exact (proj1 (missing_live_settings Sample.linux Sample.darwin_state
                  Sample.linux_live H1 H2)).
Defined.

(** On Windows without [APPDATA] the path cannot be built:
    [restore] ends in a type error before it has opened a file, [diff]
    ends in it with the backup opened and closed when there is one, and
    in the backup's file-not-found otherwise. *)
Theorem settings_without_appdata env s :
  is_linux env = false →
  truthy (IS_WINDOWS env) = true →
  APPDATA env = None →
  restore env s = (Raise (TypeError "NoneType"), s) ∧
  diff env s =
    match files s !! settings_jsonc with
    | Some _ =>
        (Raise (TypeError "NoneType"),
         add_trace [EvOpen settings_jsonc ModeR; EvClose settings_jsonc] s)
    | None =>
        (Raise (FileNotFoundError settings_jsonc),
         add_trace [EvOpenFailed settings_jsonc ModeR] s)
    end.
Proof.
  intros Hl Hw Ha.
  assert (Hp : ∀ s0, settings_path env s0 = (Raise (TypeError "NoneType"), s0))
    by (intros s0; unfold settings_path; by rewrite Hl, Hw, Ha).
  split.
  - unfold restore. by rewrite bind_unfold, Hp.
  - unfold diff, with_file, open_r.
    destruct (files s !! settings_jsonc); [|done].
    rewrite bind_unfold, Hp.
    unfold log, add_trace. simpl. by rewrite <- app_assoc.
Qed.

Lemma settings_without_appdata_witness :
  is_linux Cases.windows_without_appdata = false ∧
  truthy (IS_WINDOWS Cases.windows_without_appdata) = true ∧
  APPDATA Cases.windows_without_appdata = None ∧
  restore Cases.windows_without_appdata Sample.windows_state
    = (Raise (TypeError "NoneType"), Sample.windows_state).
Proof.
  split_and!; [reflexivity..|].
  exact (proj1 (settings_without_appdata Cases.windows_without_appdata
                  Sample.windows_state eq_refl eq_refl eq_refl)).
Defined.

(** ** Snapshots of different seconds *)

Lemma snapshot_name_inj env1 env2 :
  snapshot_name env1 = snapshot_name env2 → epoch env1 = epoch env2.
Proof.
  unfold snapshot_name. intros H.
  apply (inj (String.append "vscode-settings-")) in H.
  apply string_app_inv_tail in H. by apply (inj pretty) in H.
Qed.

(** [restore] writes two files at most, its snapshot and [p]: every
    other file is as it was, in particular the snapshot of any other
    second. *)
Theorem restore_keeps_other_snapshots env s :
  (∀ q, q ≠ snapshot_name env →
        (∀ p, settings_path env s = (Ok (Some p), s) → q ≠ p) →
        files (restore env s).2 !! q = files s !! q) ∧
  (∀ env', epoch env' ≠ epoch env →
        files (restore env s).2 !! snapshot_name env'
        = files s !! snapshot_name env').
Proof.
  assert (Hmain : ∀ q, q ≠ snapshot_name env →
            (∀ p, settings_path env s = (Ok (Some p), s) → q ≠ p) →
            files (restore env s).2 !! q = files s !! q).
  { intros q Hq Hp.
    pose proof (restore_runs env s) as Hrun.
    inversion Hrun as
      [e Hnone|p Hpath HA|p A Hpath HA HB|p A B Hpath HA HB Hnp Hc
       |p A B Hpath HA HB]; simpl; try done.
    - by rewrite lookup_insert_ne.
    - by rewrite lookup_insert_ne.
    - specialize (Hp p Hpath). by rewrite !lookup_insert_ne. }
  split; [exact Hmain|].
  intros env' Hne. apply Hmain.
  - intros H. by apply snapshot_name_inj in H.
  - intros p Hp.
    destruct (last_char_settings_path env p s s Hp) as [Hlp _].
    eapply last_char_ne; [apply last_char_snapshot|exact Hlp|done].
Qed.

(** A run: the Windows sample restored one second after a first
    [restore] keeps the first snapshot. *)
Example restore_one_second_later :
  let s1 := (restore Sample.windows Sample.windows_state).2 in
  let s2 := (restore Cases.windows_later s1).2 in
  files s2 !! "vscode-settings-1700000000.jsonc" = Some "A" ∧
  files s2 !! "vscode-settings-1700000001.jsonc" = Some "B".
Proof. vm_compute. done. Qed.

(** ** Line ends *)

(** Induction on a text two characters at a time. *)
Lemma string_ind2 (P : string → Prop) :
  P EmptyString →
  (∀ c, P (String c EmptyString)) →
  (∀ c c' r, P r → P (String c' r) → P (String c (String c' r))) →
  ∀ s, P s.
Proof.
  intros H0 H1 H2 s.
  assert (H : P s ∧ ∀ c, P (String c s)); [|by destruct H].
  induction s as [|c' r [IH1 IH2]]; [by split|].
  split; [apply IH2|]. intros c. by apply H2.
Qed.

Lemma universal_newlines_cons c r :
  Text.universal_newlines (String c r) =
  if Ascii.eqb c Text.CR then
    match r with
    | String c' r' =>
        if Ascii.eqb c' Text.LF then String Text.LF (Text.universal_newlines r')
        else String Text.LF (Text.universal_newlines r)
    | EmptyString => String Text.LF EmptyString
    end
  else String c (Text.universal_newlines r).
Proof. by destruct r. Qed.

Lemma universal_newlines_no_cr s : no_cr (Text.universal_newlines s) = true.
Proof.
  induction s as [|c|c c' r IH1 IH2] using string_ind2; [done|..].
  - rewrite universal_newlines_cons.
    destruct (Ascii.eqb c Text.CR) eqn:Ec; [done|].
    cbn [no_cr Text.universal_newlines]. by rewrite Ec.
  - rewrite universal_newlines_cons.
    destruct (Ascii.eqb c Text.CR) eqn:Ec.
    + destruct (Ascii.eqb c' Text.LF); [exact IH1|].
      cbn [no_cr]. by rewrite IH2.
    + cbn [no_cr]. by rewrite IH2, Ec.
Qed.

Lemma universal_newlines_id s :
  no_cr s = true → Text.universal_newlines s = s.
Proof.
  induction s as [|c s IH]; [done|]. cbn [no_cr Text.universal_newlines].
  intros [Hc Hs]%andb_prop. apply negb_true_iff in Hc. rewrite Hc.
  by rewrite IH.
Qed.

(** A text that went through text mode once is not changed by going
    through it again. *)
Lemma universal_newlines_idem s :
  Text.universal_newlines (Text.universal_newlines s)
  = Text.universal_newlines s.
Proof. apply universal_newlines_id, universal_newlines_no_cr. Qed.






(** ** Round trips *)

Lemma backup_run env sh s command src c :
  can_spawn env = true →
  copy_source env = Some (command, src) →
  files s !! src = Some c →
  shell_copies sh command = true →
  backup env sh s =
    (Ok tt,
     add_trace [EvOpen extensions_txt ModeW; spawned env list_argv;
                EvClose extensions_txt; EvShell command]
       (set_files
          (<[settings_jsonc := c]> (<[extensions_txt := listed env]> (files s)))
          s)).
Proof.
  intros Hs Hc Hsrc Hsh.
  destruct (copy_source_ne env command src Hc) as [Hne1 Hne2].
  unfold backup. rewrite bind_unfold, capture_list_ok by done.
  cbv beta iota. rewrite backup_copy_step, Hc.
  unfold shell_copy. simpl files.
  rewrite lookup_insert_ne, Hsrc, Hsh by done.
  unfold log, add_trace, set_files. simpl. by rewrite <- !app_assoc.
Qed.






(** After a capture that copied the live settings, [diff] finds the
    two files alike and prints nothing. *)
Theorem capture_then_diff env sh s command live c :
  can_spawn env = true →
  copy_source env = Some (command, live) →
  live_settings env = Some live →
  files s !! live = Some c →
  shell_copies sh command = true →
  (diff env (backup env sh s).2).1 = Ok tt ∧
  stdout (diff env (backup env sh s).2).2 = stdout s.
Proof.
  intros Hs Hc Hlive Hsrc Hsh.
  destruct (copy_source_ne env command live Hc) as [Hne1 Hne2].
  rewrite (backup_run env sh s command live c) by done. cbn [snd].
  rewrite (diff_run env _ live c c).
  - simpl. by rewrite unified_diff_same, app_nil_r.
  - done.
  - simpl. by rewrite lookup_insert_eq.
  - simpl. by rewrite !lookup_insert_ne.
Qed.

Lemma capture_then_diff_witness :
  can_spawn Sample.windows = true ∧
  copy_source Sample.windows =
    Some ("copy " +:+ Sample.windows_live +:+ " .\vscode-settings.jsonc",
          Sample.windows_live) ∧
  live_settings Sample.windows = Some Sample.windows_live ∧
  files Sample.windows_state_crlf !! Sample.windows_live
    = Some (String "{" (String Text.CR (String Text.LF "}"))) ∧
  stdout (diff Sample.windows
            (backup Sample.windows Sample.posix_shell
               Sample.windows_state_crlf).2).2 = [].
Proof.
  split_and!; [reflexivity..|].
  exact (proj2 (capture_then_diff Sample.windows Sample.posix_shell
                  Sample.windows_state_crlf _ _ _
                  eq_refl eq_refl eq_refl eq_refl eq_refl)).
Defined.

Lemma windows_with_path env appdata s :
  windows_with env appdata →
  settings_path env s = (Ok (Some (windows_settings appdata)), s) ∧
  expanduser env (windows_settings appdata) = windows_settings appdata ∧
  live_settings env = Some (windows_settings appdata) ∧
  copy_source env =
    Some ("copy " +:+ windows_settings appdata +:+ " .\vscode-settings.jsonc",
          windows_settings appdata).
Proof.
  intros (Hl & Hw & Ha & Hc).
  pose proof (drive_path_expanduser env appdata Hc) as Hexp.
  split_and!.
  - unfold settings_path. by rewrite Hl, Hw, Ha.
  - done.
  - unfold live_settings. rewrite Hl, Hw, Ha.
    change (Some (expanduser env (windows_settings appdata))
            = Some (windows_settings appdata)).
    by rewrite Hexp.
  - unfold copy_source. by rewrite Hl, Hw, Ha.
Qed.

(** The run of [restore] on Windows when both files are there. *)
Lemma restore_written env s appdata A B :
  windows_with env appdata →
  files s !! windows_settings appdata = Some A →
  files s !! settings_jsonc = Some B →
  let p := windows_settings appdata in
  restore env s =
    (Ok tt,
     add_trace (snapshot_events env p A
                ++ [EvOpen settings_jsonc ModeR; EvOpen p ModeW;
                    EvWrite p (Text.universal_newlines B); EvClose p;
                    EvClose settings_jsonc])
       (set_files (<[p := Text.universal_newlines B]>
                     (<[snapshot_name env := Text.universal_newlines A]>
                        (files s))) s)).
Proof.
  intros Hwin HA HB p.
  destruct (windows_with_path env appdata s Hwin) as (Hpath & Hexp & _ & _).
  pose proof (restore_runs env s) as Hrun.
  inversion Hrun as
    [e Hnone|q Hp HA'|q A' Hp HA' HB'|q A' B' Hp HA' HB' Hnp Hcc
     |q A' B' Hp HA' HB'];
    try (assert (q = windows_settings appdata) as -> by congruence;
         rewrite Hexp in * ); try congruence.
  - destruct (windows_with_path env appdata s Hwin) as (_ & _ & Hl & _).
    congruence.
  - assert (A' = A) as -> by congruence. assert (B' = B) as -> by congruence.
    done.
Qed.

Lemma windows_path_ne env appdata :
  windows_settings appdata ≠ snapshot_name env ∧
  windows_settings appdata ≠ settings_jsonc.
Proof.
  assert (Hl : Text.last_char (windows_settings appdata) = Some "n"%char)
    by (unfold windows_settings; by rewrite last_char_app).
  split.
  - eapply last_char_ne; [exact Hl|apply last_char_snapshot|done].
  - by intros E; rewrite E in Hl.
Qed.

(** After a [restore] that went through with an ASCII backup, [diff]
    prints nothing: the live file was written as UTF-8 and is read
    again with the locale's codec, which on ASCII gives the text that
    was written. *)
Theorem restore_then_diff env s appdata A B :
  windows_with env appdata →
  files s !! windows_settings appdata = Some A →
  files s !! settings_jsonc = Some B →
  Text.is_ascii B = true →
  (diff env (restore env s).2).1 = Ok tt ∧
  stdout (diff env (restore env s).2).2 = stdout s ∧
  files (restore env s).2 !! windows_settings appdata
    = Some (Text.universal_newlines B) ∧
  Text.is_ascii (Text.universal_newlines B) = true.
Proof.
  intros Hwin HA HB HaB.
  destruct (windows_with_path env appdata s Hwin) as (_ & _ & Hlive & _).
  destruct (windows_path_ne env appdata) as [Hne1 Hne2].
  rewrite (restore_written env s appdata A B) by done. cbn [snd].
  rewrite (diff_run env _ (windows_settings appdata) B
             (Text.universal_newlines B)).
  - simpl. rewrite universal_newlines_idem, unified_diff_same, app_nil_r.
    rewrite lookup_insert_eq. split_and!; try done.
    by apply universal_newlines_ascii.
  - done.
  - simpl. rewrite !lookup_insert_ne; [done|..].
    + apply snapshot_ne_backup.
    + done.
  - simpl. by rewrite lookup_insert_eq.
Qed.

Lemma restore_then_diff_witness :
  windows_with Sample.windows "C:\Users\u\AppData\Roaming" ∧
  Text.is_ascii "B" = true ∧
  stdout (diff Sample.windows
            (restore Sample.windows Sample.windows_state_crlf).2).2 = [].
Proof.
  assert (H : windows_with Sample.windows "C:\Users\u\AppData\Roaming")
    by (split_and!; reflexivity).
  split_and!; [exact H | reflexivity |].
  exact (proj1 (proj2 (restore_then_diff Sample.windows Sample.windows_state_crlf
                  _ _ "B" H eq_refl eq_refl eq_refl))).
Defined.

(** A capture followed by a [restore] gives ASCII settings back as
    they were, up to the line ends: the live file and the snapshot both
    hold the text the live file had.  The text is ASCII because
    [restore] reads with the locale's codec and writes UTF-8. *)
Theorem backup_then_restore env sh s appdata c :
  windows_with env appdata →
  can_spawn env = true →
  files s !! windows_settings appdata = Some c →
  Text.is_ascii c = true →
  shell_copies sh
    ("copy " +:+ windows_settings appdata +:+ " .\vscode-settings.jsonc")
    = true →
  let s2 := restore env (backup env sh s).2 in
  s2.1 = Ok tt ∧
  files s2.2 !! windows_settings appdata = Some (Text.universal_newlines c) ∧
  files s2.2 !! snapshot_name env = Some (Text.universal_newlines c) ∧
  Text.is_ascii (Text.universal_newlines c) = true.
Proof.
  intros Hwin Hs Hc Hac Hsh.
  destruct (windows_with_path env appdata s Hwin) as (_ & _ & _ & Hsrc).
  destruct (windows_path_ne env appdata) as [Hne1 Hne2].
  destruct (copy_source_ne env _ _ Hsrc) as [Hne3 _].
  rewrite (backup_run env sh s _ _ c Hs Hsrc Hc Hsh). cbn [snd].
  rewrite (restore_written env _ appdata c c); [| done | |].
  - cbn [fst snd files set_files add_trace]. split_and!; [done| | |].
    + by rewrite lookup_insert_eq.
    + rewrite lookup_insert_ne by done. by rewrite lookup_insert_eq.
    + by apply universal_newlines_ascii.
  - simpl. by rewrite !lookup_insert_ne.
  - simpl. by rewrite lookup_insert_eq.
Qed.

Lemma backup_then_restore_witness :
  windows_with Sample.windows "C:\Users\u\AppData\Roaming" ∧
  can_spawn Sample.windows = true ∧
  files Sample.windows_state_crlf !! Sample.windows_live
    = Some (String "{" (String Text.CR (String Text.LF "}"))) ∧
  Text.is_ascii (String "{" (String Text.CR (String Text.LF "}"))) = true ∧
  files (restore Sample.windows
           (backup Sample.windows Sample.posix_shell
              Sample.windows_state_crlf).2).2 !! Sample.windows_live
    = Some (String "{" (String Text.LF "}")).
Proof.
  assert (H : windows_with Sample.windows "C:\Users\u\AppData\Roaming")
    by (split_and!; reflexivity).
  split_and!; [exact H | reflexivity | reflexivity | reflexivity |].
  exact (proj1 (proj2
    (backup_then_restore Sample.windows Sample.posix_shell
       Sample.windows_state_crlf _ _ H eq_refl eq_refl eq_refl eq_refl))).
Defined.

(** Two [restore]s within one second share the snapshot file: the
    second overwrites it with the text the first had restored, and the
    settings the first had saved there are gone.  The texts are ASCII
    because [restore] reads with the locale's codec and writes UTF-8. *)
Theorem restore_twice_same_second env s appdata A B :
  windows_with env appdata →
  files s !! windows_settings appdata = Some A →
  files s !! settings_jsonc = Some B →
  Text.is_ascii A = true →
  Text.is_ascii B = true →
  let s2 := restore env (restore env s).2 in
  s2.1 = Ok tt ∧
  files (restore env s).2 !! snapshot_name env
    = Some (Text.universal_newlines A) ∧
  files s2.2 !! snapshot_name env = Some (Text.universal_newlines B) ∧
  files s2.2 !! windows_settings appdata = Some (Text.universal_newlines B) ∧
  Text.is_ascii (Text.universal_newlines A) = true ∧
  Text.is_ascii (Text.universal_newlines B) = true.
Proof.
  intros Hwin HA HB HaA HaB.
  destruct (windows_path_ne env appdata) as [Hne1 Hne2].
  rewrite (restore_written env s appdata A B) by done. cbn [snd].
  rewrite (restore_written env _ appdata (Text.universal_newlines B) B);
    [| done | |].
  - cbn [fst snd files set_files add_trace].
    split_and!; [done| | | |by apply universal_newlines_ascii..].
    + rewrite lookup_insert_ne by done. by rewrite lookup_insert_eq.
    + rewrite lookup_insert_ne by done.
      by rewrite lookup_insert_eq, universal_newlines_idem.
    + by rewrite lookup_insert_eq.
  - simpl. by rewrite lookup_insert_eq.
  - simpl. rewrite !lookup_insert_ne; [done|..].
    + apply snapshot_ne_backup.
    + done.
Qed.

Lemma restore_twice_same_second_witness :
  windows_with Sample.windows "C:\Users\u\AppData\Roaming" ∧
  Text.is_ascii "A" = true ∧ Text.is_ascii "B" = true ∧
  files (restore Sample.windows
           (restore Sample.windows Sample.windows_state).2).2
    !! snapshot_name Sample.windows = Some (Text.universal_newlines "B").
Proof.
  assert (H : windows_with Sample.windows "C:\Users\u\AppData\Roaming")
    by (split_and!; reflexivity).
  split_and!; [exact H | reflexivity | reflexivity |].
  exact (proj1 (proj2 (proj2
    (restore_twice_same_second Sample.windows Sample.windows_state
       _ "A" "B" H eq_refl eq_refl eq_refl eq_refl)))).
Defined.

(** ** When the diff is empty *)

Section Matches.
Context (a b : list string) (b2j : gmap string (list nat)).
Context (Hb2j : ∀ x js j, b2j !! x = Some js → j ∈ js → b !! j = Some x).

Lemma vblock_cell i j x j2len :
  cells_ok a b i j2len →
  a !! i = Some x → b !! j = Some x →
  let k := Difflib.j2lenget j2len j + 1 in
  k ≤ S i ∧ k ≤ S (S j) ∧ k ≤ S j ∧ vblock a b (S i - k, S j - k, k).
Proof.
  intros Hcells Hai Hbj k. unfold k, Difflib.j2lenget.
  pose proof (lookup_lt_Some _ _ _ Hai) as Hi.
  pose proof (lookup_lt_Some _ _ _ Hbj) as Hj.
  assert (Hone : vblock a b (i, j, 1)).
  { split_and!; simpl; [lia..|]. intros t Ht.
    replace t with 0 by lia. simpl. rewrite !Nat.add_0_r.
    by rewrite Hai, Hbj. }
  destruct j as [|j'].
  { simpl. split_and!; [lia..|]. by rewrite !Nat.sub_0_r. }
  destruct (j2len !! j') as [k0|] eqn:E; simpl.
  2: { split_and!; [lia..|].
       by replace (i - 0) with i by lia. }
  destruct (Hcells j' k0 E) as (H1 & H2 & (Hb1 & Hb2 & Hm)).
  cbn [fst snd] in Hb1, Hb2, Hm.
  split_and!; [lia..|].
  split_and!; cbn [fst snd]; [lia..|].
  intros t Ht. destruct (decide (t = k0)) as [->|Hne].
  - replace (S i - (k0 + 1) + k0) with i by lia.
    replace (S (S j') - (k0 + 1) + k0) with (S j') by lia.
    by rewrite Hai, Hbj.
  - replace (S i - (k0 + 1) + t) with (i - k0 + t) by lia.
    replace (S (S j') - (k0 + 1) + t) with (S j' - k0 + t) by lia.
    apply Hm. lia.
Qed.

Lemma scan_row_valid j2len i blo bhi x js newj2len best :
  cells_ok a b i j2len →
  a !! i = Some x →
  Forall (λ j, b !! j = Some x) js →
  cells_ok a b (S i) newj2len →
  vblock a b best →
  let r := Difflib.scan_row j2len i blo bhi js newj2len best in
  cells_ok a b (S i) r.1 ∧ vblock a b r.2.
Proof.
  intros Hcells Hai Hjs. revert newj2len best.
  induction Hjs as [|j js Hbj Hjs IH]; intros newj2len best Hnew Hbest; simpl;
    [done|].
  destruct (j <? blo); [by apply IH|].
  destruct (bhi <=? j); [done|].
  destruct (vblock_cell i j x j2len Hcells Hai Hbj) as (H1 & _ & H2 & Hv).
  apply IH.
  - intros j0 k0. destruct (decide (j = j0)) as [<-|Hne].
    + rewrite lookup_insert_eq. intros [= <-]. done.
    + rewrite lookup_insert_ne by done. apply Hnew.
  - destruct (best.2 <? _); [|done].
    replace (i + 1 - (Difflib.j2lenget j2len j + 1))
      with (S i - (Difflib.j2lenget j2len j + 1)) by lia.
    replace (j + 1 - (Difflib.j2lenget j2len j + 1))
      with (S j - (Difflib.j2lenget j2len j + 1)) by lia.
    done.
Qed.

Lemma scan_rows_valid blo bhi rows i j2len best :
  rows = seq i (length rows) →
  cells_ok a b i j2len →
  vblock a b best →
  vblock a b (Difflib.scan_rows a b2j blo bhi rows j2len best).
Proof.
  revert i j2len best.
  induction rows as [|i0 rows IH]; intros i j2len best Hrows Hcells Hbest;
    [done|].
  simpl in Hrows. injection Hrows as -> Hrows. simpl.
  assert (Hempty : cells_ok a b (S i) ∅) by (intros j k; by rewrite lookup_empty).
  destruct (a !! i) as [x|] eqn:Hai.
  - destruct (b2j !! x) as [js|] eqn:Hx; simpl.
    + pose proof (scan_row_valid j2len i blo bhi x js ∅ best Hcells Hai) as Hrow.
      destruct (Difflib.scan_row j2len i blo bhi js ∅ best)
        as [newj2len best'].
      destruct Hrow as [Hc' Hb']; [|done|done|].
      { apply Forall_forall. intros j Hj. by apply (Hb2j x js). }
      by apply (IH (S i)).
    + by apply (IH (S i)).
  - simpl. by apply (IH (S i)).
Qed.

Lemma grow_down_valid junk alo blo besti bestj bestsize :
  vblock a b (besti, bestj, bestsize) →
  vblock a b (Difflib.grow_down a b junk alo blo besti bestj bestsize).
Proof.
  revert bestj bestsize.
  induction besti as [|i IH]; intros bestj bestsize Hv; [done|].
  simpl. destruct (_ && _ && _ && _) eqn:E; [|done].
  apply andb_prop in E as [[[E1 E2]%andb_prop _]%andb_prop E4].
  apply Nat.ltb_lt in E2. apply bool_decide_eq_true_1 in E4.
  rewrite Nat.sub_0_r in E4.
  destruct Hv as (Hb1 & Hb2 & Hm). simpl in *.
  apply IH. split_and!; simpl; [lia..|].
  intros t Ht. destruct t as [|t].
  - by rewrite !Nat.add_0_r.
  - replace (i + S t) with (S i + t) by lia.
    replace (bestj - 1 + S t) with (bestj + t) by lia.
    apply Hm. lia.
Qed.

Lemma grow_up_valid junk ahi bhi room besti bestj bestsize :
  ahi ≤ length a → bhi ≤ length b →
  vblock a b (besti, bestj, bestsize) →
  vblock a b (Difflib.grow_up a b junk ahi bhi room besti bestj bestsize).
Proof.
  intros Ha Hb. revert bestsize.
  induction room as [|room IH]; intros bestsize Hv; [done|].
  simpl. destruct (_ && _ && _ && _) eqn:E; [|done].
  apply andb_prop in E as [[[E1 E2]%andb_prop _]%andb_prop E4].
  apply Nat.ltb_lt in E1. apply Nat.ltb_lt in E2.
  apply bool_decide_eq_true_1 in E4.
  destruct Hv as (Hb1 & Hb2 & Hm). simpl in *.
  apply IH. split_and!; simpl; [lia..|].
  intros t Ht. destruct (decide (t = bestsize)) as [->|]; [done|].
  apply Hm. lia.
Qed.

Lemma find_longest_match_valid alo ahi blo bhi :
  range_in a b (alo, ahi, blo, bhi) →
  vblock a b (Difflib.find_longest_match a b b2j alo ahi blo bhi).
Proof.
  intros (H1 & H2 & H3 & H4). simpl in *.
  unfold Difflib.find_longest_match.
  pose proof (scan_rows_valid blo bhi (seq alo (ahi - alo)) alo ∅ (alo, blo, 0))
    as H0.
  destruct (Difflib.scan_rows _ _ _ _ _ _ _) as [[i0 j0] k0].
  assert (Hv0 : vblock a b (i0, j0, k0)).
  { apply H0.
    - by rewrite length_seq.
    - intros j k. by rewrite lookup_empty.
    - split_and!; simpl; [lia..|]. intros t Ht. lia. }
  pose proof (grow_down_valid false alo blo i0 j0 k0 Hv0) as Hv1.
  destruct (Difflib.grow_down a b false _ _ _ _ _) as [[i1 j1] k1].
  pose proof (grow_up_valid false ahi bhi (ahi - (i1 + k1)) i1 j1 k1 H2 H4 Hv1)
    as Hv2.
  destruct (Difflib.grow_up a b false _ _ _ _ _ _) as [[i2 j2] k2].
  pose proof (grow_down_valid true alo blo i2 j2 k2 Hv2) as Hv3.
  destruct (Difflib.grow_down a b true _ _ _ _ _) as [[i3 j3] k3].
  by apply grow_up_valid.
Qed.

Lemma match_loop_valid fuel queue blocks :
  Forall (range_in a b) queue →
  Forall (vblock a b) blocks →
  Forall (vblock a b) (Difflib.match_loop fuel a b b2j queue blocks).
Proof.
  revert queue blocks.
  induction fuel as [|fuel IH]; intros queue blocks Hq Hb.
  - by destruct queue.
  - destruct queue as [|[[[alo ahi] blo] bhi] queue]; [done|].
    apply Forall_cons in Hq as [Hr Hq].
    cbn [Difflib.match_loop].
    pose proof (find_longest_match_valid alo ahi blo bhi Hr) as Hv.
    destruct (Difflib.find_longest_match a b b2j alo ahi blo bhi) as [[i j] k].
    destruct Hr as (H1 & H2 & H3 & H4). destruct Hv as (Hv1 & Hv2 & Hv3).
    simpl in *.
    destruct (0 <? k); [|by apply IH].
    apply IH.
    + apply Forall_app. split.
      { destruct (_ && _) eqn:E; [|done]. repeat constructor; simpl.
        all: apply andb_prop in E as [E1 E2];
          apply Nat.ltb_lt in E1; apply Nat.ltb_lt in E2; lia. }
      apply Forall_app. split; [|done].
      destruct (_ && _) eqn:E; [|done]. repeat constructor; simpl.
      all: apply andb_prop in E as [E1 E2];
        apply Nat.ltb_lt in E1; apply Nat.ltb_lt in E2; lia.
    + apply Forall_app. split; [done|]. by repeat constructor.
Qed.

End Matches.

Lemma insert_block_Forall (P : Difflib.block → Prop) x l :
  P x → Forall P l → Forall P (Difflib.insert_block x l).
Proof.
  intros Hx. induction 1 as [|y l Hy Hl IH]; simpl.
  - by repeat constructor.
  - destruct (Difflib.block_leb x y); repeat constructor; done.
Qed.

Lemma sort_blocks_Forall (P : Difflib.block → Prop) l :
  Forall P l → Forall P (Difflib.sort_blocks l).
Proof.
  induction 1 as [|x l Hx Hl IH]; simpl; [done|].
  by apply insert_block_Forall.
Qed.

Lemma vblock_merge a b i j k1 k2 :
  vblock a b (i, j, k1) → vblock a b (i + k1, j + k1, k2) →
  vblock a b (i, j, k1 + k2).
Proof.
  intros (H1 & H2 & H3) (H4 & H5 & H6). cbn [fst snd] in *.
  split_and!; cbn [fst snd]; [lia..|].
  intros t Ht. destruct (decide (t < k1)) as [Hlt|Hge]; [by apply H3|].
  replace t with (k1 + (t - k1)) by lia. rewrite !Nat.add_assoc.
  apply H6. lia.
Qed.

Lemma collapse_valid a b cur l :
  vblock a b cur → Forall (vblock a b) l →
  Forall (λ blk, vblock a b blk ∧ 0 < blk.2) (Difflib.collapse cur l).
Proof.
  intros Hcur Hl. revert cur Hcur.
  induction Hl as [|[[i2 j2] k2] l Hy Hl IH]; intros [[i1 j1] k1] Hcur; simpl.
  - destruct (0 <? k1) eqn:E; [|done].
    apply Nat.ltb_lt in E. by apply Forall_singleton.
  - destruct (_ && _) eqn:E.
    + apply andb_prop in E as [E1%Nat.eqb_eq E2%Nat.eqb_eq]. subst i2 j2.
      apply IH. by apply vblock_merge.
    + apply Forall_app. split; [|by apply IH].
      destruct (0 <? k1) eqn:E1; [|done].
      apply Nat.ltb_lt in E1. by apply Forall_singleton.
Qed.

Lemma chain_b_sound b x js j :
  Difflib.chain_b b !! x = Some js → j ∈ js → b !! j = Some x.
Proof.
  intros ->%chain_b_lookup [_ Hj]%elem_of_positions.
  by rewrite Nat.sub_0_r in Hj.
Qed.

(** The blocks before the closing sentinel are matches of positive
    size. *)
Lemma matching_blocks_valid a b :
  ∃ blocks,
    Difflib.get_matching_blocks a b = blocks ++ [(length a, length b, 0)] ∧
    Forall (λ blk, vblock a b blk ∧ 0 < blk.2) blocks.
Proof.
  eexists. split; [reflexivity|].
  apply collapse_valid.
  - split_and!; cbn [fst snd]; [lia..|]. intros t Ht. lia.
  - apply sort_blocks_Forall.
    apply (match_loop_valid a b (Difflib.chain_b b) (chain_b_sound b)).
    + repeat constructor; cbn [fst snd]; lia.
    + constructor.
Qed.

Lemma trim_first_tags n codes :
  map Difflib.tag_of (Difflib.trim_first n codes) = map Difflib.tag_of codes.
Proof. by destruct codes as [|[[[[[] ?] ?] ?] ?] ?]. Qed.

Lemma trim_last_tags n codes :
  map Difflib.tag_of (Difflib.trim_last n codes) = map Difflib.tag_of codes.
Proof.
  induction codes as [|[[[[t ?] ?] ?] ?] codes IH]; [done|].
  destruct codes as [|c codes]; [by destruct t|].
  destruct t; simpl in *; by rewrite IH.
Qed.

(** The grouping loop yields no group only when it is left nothing, or
    one opcode that says "equal". *)
Lemma group_loop_nil n codes g :
  Difflib.group_loop n codes g = [] →
  map Difflib.tag_of (g ++ codes) = [] ∨
  map Difflib.tag_of (g ++ codes) = [Difflib.Equal].
Proof.
  revert g. induction codes as [|[[[[t i1] i2] j1] j2] codes IH]; intros g; simpl.
  - rewrite app_nil_r.
    destruct g as [|[[[[[] ?] ?] ?] ?] [|??]]; simpl; try done; auto.
  - destruct (_ && _); [done|]. intros H%IH.
    by rewrite <- app_assoc in H.
Qed.

(** No opcode, or one that says "equal": the two sequences are
    equal. *)
Lemma opcodes_equal a b :
  map Difflib.tag_of (Difflib.get_opcodes a b) = [] ∨
  map Difflib.tag_of (Difflib.get_opcodes a b) = [Difflib.Equal] →
  a = b.
Proof.
  unfold Difflib.get_opcodes.
  destruct (matching_blocks_valid a b) as (blocks & -> & Hv).
  destruct blocks as [|[[ai bj] size] blocks].
  - cbn [app Difflib.opcodes_from]. rewrite !app_nil_r. intros Htags.
    assert (length a = 0 ∧ length b = 0) as [Ha Hb].
    { destruct (0 <? length a) eqn:E1, (0 <? length b) eqn:E2;
        cbn in Htags; [by destruct Htags..|].
      apply Nat.ltb_ge in E1, E2. lia. }
    apply length_zero_iff_nil in Ha, Hb. by subst.
  - apply Forall_cons in Hv as [[(H1 & H2 & H3) Hs] Hv]. cbn [fst snd] in *.
    cbn [app Difflib.opcodes_from].
    pose proof Hs as Hs'. apply Nat.ltb_lt in Hs'. rewrite Hs'.
    intros Htags.
    assert (ai = 0 ∧ bj = 0 ∧
            Difflib.opcodes_from (ai + size) (bj + size)
              (blocks ++ [(length a, length b, 0)]) = []) as (-> & -> & Hrest).
    { destruct (0 <? ai) eqn:E1, (0 <? bj) eqn:E2;
        cbn in Htags; [by destruct Htags..|].
      apply Nat.ltb_ge in E1, E2. split_and!; [lia..|].
      destruct Htags as [Htags|Htags]; [done|].
      injection Htags as Htags. by apply map_eq_nil in Htags. }
    destruct blocks as [|[[ai' bj'] size'] blocks].
    + clear Htags. cbn [app Difflib.opcodes_from Nat.add] in Hrest, H1, H2, H3.
      assert (length a = size ∧ length b = size) as [Ha Hb].
      { destruct (size <? length a) eqn:E1, (size <? length b) eqn:E2;
          cbn in Hrest; try done.
        apply Nat.ltb_ge in E1, E2. lia. }
      apply list_eq. intros t. destruct (decide (t < size)) as [Hlt|Hge].
      * exact (H3 t Hlt).
      * rewrite !lookup_ge_None_2 by lia. done.
    + exfalso. apply Forall_cons in Hv as [[_ Hb] Hv]. cbn [snd] in Hb.
      cbn [app Difflib.opcodes_from] in Hrest.
      apply Nat.ltb_lt in Hb. rewrite Hb in Hrest.
      by apply app_eq_nil in Hrest as [_ Hrest].
Qed.

(** An empty diff: the two sequences are equal. *)
Lemma unified_diff_nil a b fromfile tofile n lineterm :
  Difflib.unified_diff a b fromfile tofile n lineterm = [] → a = b.
Proof.
  unfold Difflib.unified_diff.
  destruct (Difflib.get_grouped_opcodes a b n) as [|g gs] eqn:E; [|done].
  intros _. unfold Difflib.get_grouped_opcodes in E.
  apply group_loop_nil in E. cbn [app] in E.
  rewrite trim_last_tags, trim_first_tags in E.
  apply opcodes_equal.
  destruct (Difflib.get_opcodes a b); [by left|done].
Qed.

(** The lines of a text, put together again, are the text. *)
Lemma readlines_join s : foldr String.app EmptyString (Text.readlines s) = s.
Proof.
  induction s as [|c r IH]; [done|]. simpl.
  destruct (Ascii.eqb c Text.LF).
  - simpl. by rewrite IH.
  - destruct (Text.readlines r) as [|l ls]; simpl in *; by rewrite <- IH.
Qed.

Lemma readlines_inj s1 s2 :
  Text.readlines s1 = Text.readlines s2 → s1 = s2.
Proof.
  intros H. by rewrite <- (readlines_join s1), <- (readlines_join s2), H.
Qed.

(** [diff] prints nothing if and only if the backup and the live
    settings file hold the same text once their line ends are read
    as Python's text mode reads them. *)
Theorem diff_silent_iff_same_text env s live before after :
  live_settings env = Some live →
  files s !! settings_jsonc = Some before →
  files s !! live = Some after →
  stdout (diff env s).2 = stdout s ↔
  Text.universal_newlines before = Text.universal_newlines after.
Proof.
  intros Hlive Hb Ha.
  rewrite (diff_run env s live before after) by done. simpl.
  split.
  - intros Hout. apply readlines_inj.
    apply (unified_diff_nil _ _ "before.json" "after.json" 3 nl).
    apply (app_inv_head (stdout s)). by rewrite app_nil_r.
  - intros ->. by rewrite unified_diff_same, app_nil_r.
Qed.

Lemma diff_silent_iff_same_text_witness :
  live_settings Sample.linux = Some Sample.linux_live ∧
  files Sample.linux_state !! settings_jsonc = Some "B" ∧
  files Sample.linux_state !! Sample.linux_live = Some "A" ∧
  (stdout (diff Sample.linux Sample.linux_state).2 = stdout Sample.linux_state ↔
   Text.universal_newlines "B" = Text.universal_newlines "A").
Proof.
  assert (H1 : live_settings Sample.linux = Some Sample.linux_live) by reflexivity.
  assert (H2 : files Sample.linux_state !! settings_jsonc = Some "B") by reflexivity.
  assert (H3 : files Sample.linux_state !! Sample.linux_live = Some "A")
    by reflexivity.
  split_and!; [exact H1 | exact H2 | exact H3 |].
  exact (diff_silent_iff_same_text Sample.linux Sample.linux_state
           Sample.linux_live "B" "A" H1 H2 H3).
Defined.
